(** * Discussion feed, login form and dashboard shell of the stock dashboard

    A shallow embedding of the three React components

      - [frontend/src/components/Discussion.tsx]
      - [frontend/src/app/login/page.tsx]
      - [frontend/src/app/page.tsx]

    Event handlers are embedded as computations in a small
    writer-and-exception monad: the writer collects, in program order, the
    observable effects of a handler (network requests, state setter calls,
    router calls), the exception part models [throw] / [try ... catch].
    Component state is a record; a handler reads the record of the render
    it was created in (its closure) and its setter calls are committed to
    the current record. *)

From Stdlib Require Import NArith ZArith List String Ascii Bool Lia.
From stdpp Require Import base list gmap.
Import ListNotations.

Local Open Scope N_scope.

(** ** JavaScript strings *)

Module JS.

(** A JavaScript string is a sequence of UTF-16 code units. *)
Definition code_unit := N.
Definition js_string := list code_unit.

(** ASCII literals of the source text. *)
Definition lit (s : string) : js_string :=
  map N_of_ascii (list_ascii_of_string s).

(** [s.length] *)
Definition length (s : js_string) : N := N.of_nat (List.length s).

(** ToBoolean on a string: only the empty string is falsy. *)
Definition truthy (s : js_string) : bool :=
  match s with [] => false | _ :: _ => true end.

(** ECMAScript WhiteSpace and LineTerminator code points; these are what
    [String.prototype.trim] strips.  All of them lie in the BMP, so the
    test is on single code units. *)
Definition is_white_space (c : code_unit) : bool :=
  (c =? 0x09) || (c =? 0x0A) || (c =? 0x0B) || (c =? 0x0C) || (c =? 0x0D)
  || (c =? 0x20) || (c =? 0xA0) || (c =? 0x1680)
  || ((0x2000 <=? c) && (c <=? 0x200A))
  || (c =? 0x2028) || (c =? 0x2029) || (c =? 0x202F) || (c =? 0x205F)
  || (c =? 0x3000) || (c =? 0xFEFF).

Fixpoint trimStart (s : js_string) : js_string :=
  match s with
  | [] => []
  | c :: r => if is_white_space c then trimStart r else s
  end.

Definition trimEnd (s : js_string) : js_string :=
  rev (trimStart (rev s)).

(** [s.trim()] *)
Definition trim (s : js_string) : js_string := trimEnd (trimStart s).

(** [s.includes(c)] for a one-code-unit search string. *)
Definition includes (s : js_string) (c : code_unit) : bool :=
  existsb (N.eqb c) s.

(** The string is empty or consists of white space only. *)
Definition blank (s : js_string) : bool := forallb is_white_space s.

(** *** JSON.stringify on strings (QuoteJSONString) *)

Definition is_leading_surrogate (c : code_unit) : bool :=
  (0xD800 <=? c) && (c <=? 0xDBFF).
Definition is_trailing_surrogate (c : code_unit) : bool :=
  (0xDC00 <=? c) && (c <=? 0xDFFF).

Definition hex_digit (n : N) : code_unit :=
  if n <? 10 then 48 + n else 87 + n.

(** UnicodeEscape: backslash, u, four lowercase hexadecimal digits. *)
Definition UnicodeEscape (c : code_unit) : js_string :=
  [92; 117; hex_digit ((c / 4096) mod 16); hex_digit ((c / 256) mod 16);
   hex_digit ((c / 16) mod 16); hex_digit (c mod 16)].

(** One code point that is not the first half of a surrogate pair. *)
Definition quote_unit (c : code_unit) : js_string :=
  if c =? 0x08 then [92; 98]
  else if c =? 0x09 then [92; 116]
  else if c =? 0x0A then [92; 110]
  else if c =? 0x0C then [92; 102]
  else if c =? 0x0D then [92; 114]
  else if c =? 0x22 then [92; 34]
  else if c =? 0x5C then [92; 92]
  else if (c <? 0x20) || is_leading_surrogate c || is_trailing_surrogate c
       then UnicodeEscape c
  else [c].

(** The string is read as code points: a leading surrogate followed by a
    trailing one is a single supplementary code point and is copied;
    every other surrogate is alone and is escaped. *)
Fixpoint quote_body (s : js_string) : js_string :=
  match s with
  | [] => []
  | c :: r =>
      if is_leading_surrogate c then
        match r with
        | d :: r' =>
            if is_trailing_surrogate d then c :: d :: quote_body r'
            else quote_unit c ++ quote_body r
        | [] => quote_unit c
        end
      else quote_unit c ++ quote_body r
  end.

Definition QuoteJSONString (s : js_string) : js_string :=
  [34] ++ quote_body s ++ [34].

(** *** Reading a JSON string literal back (RFC 8259, section 7) *)

Definition hex_value (d : code_unit) : option N :=
  if (48 <=? d) && (d <=? 57) then Some (d - 48)
  else if (97 <=? d) && (d <=? 102) then Some (d - 87)
  else if (65 <=? d) && (d <=? 70) then Some (d - 55)
  else None.

Definition hex4 (a b c d : code_unit) : option code_unit :=
  match hex_value a, hex_value b, hex_value c, hex_value d with
  | Some x3, Some x2, Some x1, Some x0 =>
      Some (((x3 * 16 + x2) * 16 + x1) * 16 + x0)
  | _, _, _, _ => None
  end.

Definition simple_escape (e : code_unit) : option code_unit :=
  if e =? 34 then Some 34
  else if e =? 92 then Some 92
  else if e =? 47 then Some 47
  else if e =? 98 then Some 0x08
  else if e =? 102 then Some 0x0C
  else if e =? 110 then Some 0x0A
  else if e =? 114 then Some 0x0D
  else if e =? 116 then Some 0x09
  else None.

(** The characters of a literal after its opening quote, up to the
    closing quote; the result is the value and the text that follows. *)
Fixpoint unquote_body (s : js_string) : option (js_string * js_string) :=
  match s with
  | [] => None
  | c :: r =>
      if c =? 34 then Some ([], r)
      else if c =? 92 then
        match r with
        | e :: r1 =>
            if e =? 117 then
              match r1 with
              | h3 :: h2 :: h1 :: h0 :: r2 =>
                  match hex4 h3 h2 h1 h0, unquote_body r2 with
                  | Some u, Some (v, rest) => Some (u :: v, rest)
                  | _, _ => None
                  end
              | _ => None
              end
            else
              match simple_escape e, unquote_body r1 with
              | Some u, Some (v, rest) => Some (u :: v, rest)
              | _, _ => None
              end
        | [] => None
        end
      else if c <? 0x20 then None
      else
        match unquote_body r with
        | Some (v, rest) => Some (c :: v, rest)
        | None => None
        end
  end.

Definition parse_string_literal (s : js_string)
  : option (js_string * js_string) :=
  match s with
  | c :: r => if c =? 34 then unquote_body r else None
  | [] => None
  end.

End JS.

(** ** Effects of event handlers *)

Module Handler.
Import JS.

(** An HTTP request as passed to [fetch(url, init)]. *)
Record Request := {
  url : js_string;
  method : js_string;
  headers : list (js_string * js_string);
  body : option js_string
}.

(** What [fetch] settles to: a rejection (network failure), or a
    response with its [ok] flag and, when the body is valid JSON, the
    value [response.json()] resolves to. *)
Inductive FetchOutcome (T : Type) :=
| NetworkError
| Response (ok : bool) (json : option T).
Arguments NetworkError {T}.
Arguments Response {T} ok json.

(** A thrown value: an [Error] with its message. *)
Inductive Thrown := Error (message : js_string).

Inductive Exn (A : Type) :=
| Ok (a : A)
| Throw (e : Thrown).
Arguments Ok {A} a.
Arguments Throw {A} e.

Section Monad.
(** [E] is the type of observable effects of the component. *)
Context {E : Type}.

Definition M (A : Type) : Type := (list E * Exn A)%type.

Definition ret {A} (a : A) : M A := ([], Ok a).

Definition bind {A B} (m : M A) (k : A -> M B) : M B :=
  match m with
  | (w, Ok a) => let '(w', r) := k a in (w ++ w', r)
  | (w, Throw e) => (w, Throw e)
  end.

Definition throw {A} (e : Thrown) : M A := ([], Throw e).

Definition emit (e : E) : M unit := ([e], Ok tt).

(** [try { m } catch (err) { h err }] *)
Definition try_catch {A} (m : M A) (h : Thrown -> M A) : M A :=
  match m with
  | (w, Throw e) => let '(w', r) := h e in (w ++ w', r)
  | (w, Ok a) => (w, Ok a)
  end.

Definition effects {A} (m : M A) : list E := fst m.
End Monad.

Arguments M : clear implicits.

End Handler.

Declare Scope handler_scope.
Delimit Scope handler_scope with handler.
Notation "'let*' x ':=' m 'in' k" := (Handler.bind m (fun x => k))
  (at level 10, x name, m at level 200, k at level 200) : handler_scope.
Notation "'run' m 'in' k" := (Handler.bind m (fun _ => k))
  (at level 10, m at level 200, k at level 200) : handler_scope.

(** ** The discussion feed: [components/Discussion.tsx] *)

Module Discussion.
Import JS Handler.

Record Message := {
  id : Z;
  content : js_string;
  username : js_string;
  created_at : js_string
}.

(** The part of the auth context the component reads. *)
Record User := { user_username : js_string; token : js_string }.

(** The three [useState] cells. *)
Record State := {
  messages : list Message;
  newMessage : js_string;
  error : js_string
}.

Definition initial : State :=
  {| messages := []; newMessage := []; error := [] |}.

Inductive Effect :=
| PreventDefault
| Fetch (req : Request)
| SetMessages (ms : list Message)
| SetNewMessage (s : js_string)
| SetError (s : js_string).

Definition apply_effect (st : State) (e : Effect) : State :=
  match e with
  | SetMessages ms =>
      {| messages := ms; newMessage := newMessage st; error := error st |}
  | SetNewMessage s =>
      {| messages := messages st; newMessage := s; error := error st |}
  | SetError s =>
      {| messages := messages st; newMessage := newMessage st; error := s |}
  | PreventDefault | Fetch _ => st
  end.

(** The setter calls of a handler run, applied in order to the state
    that is current when they happen. *)
Definition commit (es : list Effect) (st : State) : State :=
  fold_left apply_effect es st.

Definition network_calls (es : list Effect) : list Request :=
  omap (fun e => match e with Fetch r => Some r | _ => None end) es.

Definition endpoint : js_string := lit "http://localhost:5001/api/discussions".

(** [`Bearer ${user?.token}`] *)
Definition bearer (user : option User) : js_string :=
  lit "Bearer " ++ match user with
                   | Some u => token u
                   | None => lit "undefined"
                   end.

(** [await fetch(req)] against a server [net]. *)
Definition await_fetch {T} (net : Request -> FetchOutcome T) (req : Request)
  : M Effect (bool * option T) :=
  ([Fetch req],
   match net req with
   | NetworkError => Throw (Error (lit "Failed to fetch"))
   | Response ok json => Ok (ok, json)
   end).

(** [await response.json()] *)
Definition await_json {T} (json : option T) : M Effect T :=
  match json with
  | Some d => ret d
  | None => throw (Error (lit "Unexpected token"))
  end.

Local Open Scope handler_scope.

Definition get_request (user : option User) : Request :=
  {| url := endpoint;
     method := lit "GET";
     headers := [(lit "Authorization", bearer user)];
     body := None |}.

Definition fetchMessages (user : option User)
    (net : Request -> FetchOutcome (list Message)) : M Effect unit :=
  try_catch
    (let* response := await_fetch net (get_request user) in
     run (if negb (fst response)
          then throw (Error (lit "Failed to fetch messages"))
          else ret tt) in
     let* data := await_json (snd response) in
     emit (SetMessages data))
    (fun err => emit (SetError (lit "Failed to load messages"))).

(** [JSON.stringify({ content: s })] *)
Definition stringify_content (s : js_string) : js_string :=
  [123] ++ QuoteJSONString (lit "content") ++ [58]
        ++ QuoteJSONString s ++ [125].

Definition post_request (user : option User) (text : js_string) : Request :=
  {| url := endpoint;
     method := lit "POST";
     headers := [(lit "Content-Type", lit "application/json");
                 (lit "Authorization", bearer user)];
     body := Some (stringify_content text) |}.

(** [handleSubmit] of the render whose state is [r]. *)
Definition handleSubmit (user : option User) (r : State)
    (net : Request -> FetchOutcome Message) : M Effect unit :=
  run emit PreventDefault in
  if negb (truthy (trim (newMessage r))) then ret tt
  else
    try_catch
      (let* response := await_fetch net (post_request user (newMessage r)) in
       run (if negb (fst response)
            then throw (Error (lit "Failed to send message"))
            else ret tt) in
       let* data := await_json (snd response) in
       run emit (SetMessages (data :: messages r)) in
       emit (SetNewMessage (lit "")))
      (fun err => emit (SetError (lit "Failed to send message"))).

(** [onChange] of the input field. *)
Definition handleChange (value : js_string) : M Effect unit :=
  emit (SetNewMessage value).

(** Submitting the form in state [st], the handler running to its end
    before anything else touches the state. *)
Definition submit user net (st : State) : State :=
  commit (effects (handleSubmit user st net)) st.

Definition refresh user net (st : State) : State :=
  commit (effects (fetchMessages user net)) st.

Definition type_text (value : js_string) (st : State) : State :=
  commit (effects (handleChange value)) st.

(** The POST settles with a message object. *)
Definition post_succeeds (net : Request -> FetchOutcome Message)
    (req : Request) (m : Message) : Prop :=
  net req = Response true (Some m).

(** The POST fails: the request is rejected, the status is not ok, or
    the body of the response is not JSON. *)
Definition post_fails (net : Request -> FetchOutcome Message)
    (req : Request) : Prop :=
  match net req with
  | NetworkError => True
  | Response ok json => ok = false \/ json = None
  end.

Definition get_succeeds (net : Request -> FetchOutcome (list Message))
    (req : Request) (ms : list Message) : Prop :=
  net req = Response true (Some ms).

Definition get_fails (net : Request -> FetchOutcome (list Message))
    (req : Request) : Prop :=
  match net req with
  | NetworkError => True
  | Response ok json => ok = false \/ json = None
  end.

(** Reading the body of the POST back, as the server's JSON parser
    does: the object has the single member [content]. *)
Definition parse_content (text : js_string) : option js_string :=
  match text with
  | open :: r =>
      if open =? 123 then
        match parse_string_literal r with
        | Some (key, colon :: r1) =>
            if (colon =? 58) && bool_decide (key = lit "content") then
              match parse_string_literal r1 with
              | Some (v, [close]) => if close =? 125 then Some v else None
              | _ => None
              end
            else None
        | _ => None
        end
      else None
  | [] => None
  end.

(** What happens to a mounted feed, one thing after the other: a
    refresh against a server, a submission against a server, the user
    typing into the input field. *)
Inductive Event :=
| Refreshed (net : Request -> FetchOutcome (list Message))
| Submitted (net : Request -> FetchOutcome Message)
| Typed (value : js_string).

Definition react (user : option User) (st : State) (e : Event) : State :=
  match e with
  | Refreshed net => refresh user net st
  | Submitted net => submit user net st
  | Typed value => type_text value st
  end.

(** The event involves no failed request. *)
Definition succeeded (user : option User) (st : State) (e : Event) : Prop :=
  match e with
  | Refreshed net => exists ms, get_succeeds net (get_request user) ms
  | Submitted net =>
      blank (newMessage st) = true \/
      exists m, post_succeeds net (post_request user (newMessage st)) m
  | Typed _ => True
  end.

Fixpoint all_succeeded (user : option User) (st : State) (es : list Event)
  : Prop :=
  match es with
  | [] => True
  | e :: es' => succeeded user st e /\ all_succeeded user (react user st e) es'
  end.

End Discussion.

(** ** Polling of the feed: the [useEffect] of [Discussion.tsx]

    The effect depends on [isAuthenticated] only.  React runs its body
    after the first render and after every render in which the flag has
    changed, and runs the cleanup function returned by the previous run
    before that and when the component is unmounted.  The browser's timer
    table is a finite map from interval handles to timers. *)

Module Polling.

Inductive Callback := FetchMessages.

Record Timer := {
  callback : Callback;
  period : N;          (* milliseconds *)
  due : N              (* earliest time of the next firing *)
}.

(** Why a read of the feed was issued. *)
Inductive Cause := OnEffect | OnTimer (handle : nat).

Record World := {
  isAuthenticated : bool;
  mounted : bool;
  now : N;
  timers : gmap nat Timer;
  next_handle : nat;
  (** the handle captured by the cleanup closure of the last effect
      run, if that run returned one *)
  cleanup : option nat;
  (** reads of the feed issued so far, latest first *)
  fetched : list (N * Cause)
}.

Definition initial (auth : bool) : World :=
  {| isAuthenticated := auth; mounted := false; now := 0;
     timers := ∅; next_handle := O; cleanup := None; fetched := [] |}.

(** [setInterval(cb, ms)] *)
Definition setInterval (cb : Callback) (ms : N) (w : World) : nat * World :=
  (next_handle w,
   {| isAuthenticated := isAuthenticated w; mounted := mounted w;
      now := now w;
      timers := <[next_handle w := {| callback := cb; period := ms;
                                      due := now w + ms |}]> (timers w);
      next_handle := S (next_handle w);
      cleanup := cleanup w; fetched := fetched w |}).

(** [clearInterval(handle)] *)
Definition clearInterval (handle : nat) (w : World) : World :=
  {| isAuthenticated := isAuthenticated w; mounted := mounted w;
     now := now w; timers := delete handle (timers w);
     next_handle := next_handle w;
     cleanup := cleanup w; fetched := fetched w |}.

(** A call of [fetchMessages]. *)
Definition call_fetchMessages (c : Cause) (w : World) : World :=
  {| isAuthenticated := isAuthenticated w; mounted := mounted w;
     now := now w; timers := timers w; next_handle := next_handle w;
     cleanup := cleanup w; fetched := (now w, c) :: fetched w |}.

Definition set_cleanup (c : option nat) (w : World) : World :=
  {| isAuthenticated := isAuthenticated w; mounted := mounted w;
     now := now w; timers := timers w; next_handle := next_handle w;
     cleanup := c; fetched := fetched w |}.

Definition set_mounted (b : bool) (w : World) : World :=
  {| isAuthenticated := isAuthenticated w; mounted := b;
     now := now w; timers := timers w; next_handle := next_handle w;
     cleanup := cleanup w; fetched := fetched w |}.

Definition set_authenticated (b : bool) (w : World) : World :=
  {| isAuthenticated := b; mounted := mounted w;
     now := now w; timers := timers w; next_handle := next_handle w;
     cleanup := cleanup w; fetched := fetched w |}.

Definition set_now (t : N) (w : World) : World :=
  {| isAuthenticated := isAuthenticated w; mounted := mounted w;
     now := t; timers := timers w; next_handle := next_handle w;
     cleanup := cleanup w; fetched := fetched w |}.

Definition set_timer (h : nat) (t : Timer) (w : World) : World :=
  {| isAuthenticated := isAuthenticated w; mounted := mounted w;
     now := now w; timers := <[h := t]> (timers w);
     next_handle := next_handle w;
     cleanup := cleanup w; fetched := fetched w |}.

(** The body of the effect. *)
Definition run_effect (w : World) : World :=
  if isAuthenticated w then
    let w1 := call_fetchMessages OnEffect w in
    let '(interval, w2) := setInterval FetchMessages 10000 w1 in
    set_cleanup (Some interval) w2
  else set_cleanup None w.

(** The cleanup function of the previous run: [clearInterval(interval)]. *)
Definition run_cleanup (w : World) : World :=
  match cleanup w with
  | Some interval => set_cleanup None (clearInterval interval w)
  | None => w
  end.

Inductive Label :=
| Mount
| Unmount
| Rerender                    (* a render with [isAuthenticated] unchanged *)
| AuthChange (b : bool)       (* login ([true]) or logout ([false]) *)
| Elapse (d : N)
| Tick (handle : nat).        (* the browser fires an interval timer *)

Definition step_fn (w : World) (l : Label) : option World :=
  match l with
  | Mount =>
      if mounted w then None
      else Some (run_effect (set_mounted true w))
  | Unmount =>
      if mounted w then Some (set_mounted false (run_cleanup w))
      else None
  | Rerender => if mounted w then Some w else None
  | AuthChange b =>
      if Bool.eqb b (isAuthenticated w) then None
      else if mounted w
           then Some (run_effect (set_authenticated b (run_cleanup w)))
           else Some (set_authenticated b w)
  | Elapse d => Some (set_now (now w + d) w)
  | Tick h =>
      match timers w !! h with
      | Some t =>
          if due t <=? now w then
            match callback t with
            | FetchMessages =>
                Some (call_fetchMessages (OnTimer h)
                        (set_timer h {| callback := callback t;
                                        period := period t;
                                        due := now w + period t |} w))
            end
          else None
      | None => None
      end
  end.

Definition step (w : World) (l : Label) (w' : World) : Prop :=
  step_fn w l = Some w'.

(** Executions: the labels are in the order the steps are taken. *)
Inductive steps : World -> list Label -> World -> Prop :=
| steps_nil w : steps w [] w
| steps_cons w l w1 ls w2 :
    step w l w1 -> steps w1 ls w2 -> steps w (l :: ls) w2.

Definition reachable (w : World) : Prop :=
  exists auth ls, steps (initial auth) ls w.

Definition is_tick (l : Label) : bool :=
  match l with Tick _ => true | _ => false end.

Definition is_login (l : Label) : bool :=
  match l with AuthChange true => true | _ => false end.

(** Running a list of labels, when each step is enabled. *)
Fixpoint run_labels (w : World) (ls : list Label) : option World :=
  match ls with
  | [] => Some w
  | l :: ls' =>
      match step_fn w l with
      | Some w1 => run_labels w1 ls'
      | None => None
      end
  end.

(** The shape of the worlds the component can be in: the cleanup
    closure exists exactly while the feed is mounted and the viewer
    authenticated, and then its interval is the only timer. *)
Definition polling_inv (w : World) : Prop :=
  match cleanup w with
  | Some h =>
      mounted w = true /\ isAuthenticated w = true /\
      exists t, timers w = {[h := t]} /\ callback t = FetchMessages /\
                period t = 10000 /\ due t <= now w + 10000
  | None =>
      timers w = ∅ /\ (mounted w = true -> isAuthenticated w = false)
  end.

End Polling.

(** ** The login form: [app/login/page.tsx] *)

Module Login.
Import JS Handler.

Record State := {
  isLogin : bool;
  username : js_string;
  email : js_string;
  password : js_string;
  error : js_string
}.

Definition initial : State :=
  {| isLogin := true; username := []; email := []; password := [];
     error := [] |}.

(** Calls into the auth context and the router. *)
Inductive AuthCall :=
| login (username password : js_string)
| register (username email password : js_string).

Inductive Effect :=
| PreventDefault
| SetError (s : js_string)
| Call (c : AuthCall)
| RouterPush (path : js_string).

(** What the promise of an auth call settles to. *)
Inductive AuthOutcome := Resolved | Rejected (err : Thrown).

Definition apply_effect (st : State) (e : Effect) : State :=
  match e with
  | SetError s =>
      {| isLogin := isLogin st; username := username st;
         email := email st; password := password st; error := s |}
  | PreventDefault | Call _ | RouterPush _ => st
  end.

Definition commit (es : list Effect) (st : State) : State :=
  fold_left apply_effect es st.

Definition auth_calls (es : list Effect) : list AuthCall :=
  omap (fun e => match e with Call c => Some c | _ => None end) es.

Local Open Scope handler_scope.

Definition validateForm (r : State) : M Effect bool :=
  if negb (truthy (username r)) || (length (trim (username r)) <? 3) then
    run emit (SetError (lit "Username must be at least 3 characters long")) in
    ret false
  else if negb (truthy (password r)) || (length (password r) <? 6) then
    run emit (SetError (lit "Password must be at least 6 characters long")) in
    ret false
  else if negb (isLogin r)
          && (negb (truthy (email r)) || negb (includes (email r) 64)) then
    run emit (SetError (lit "Please enter a valid email address")) in
    ret false
  else ret true.

Definition await_call (auth : AuthCall -> AuthOutcome) (c : AuthCall)
  : M Effect unit :=
  ([Call c],
   match auth c with
   | Resolved => Ok tt
   | Rejected err => Throw err
   end).

Definition message (err : Thrown) : js_string :=
  match err with Error m => m end.

Definition handleSubmit (r : State) (auth : AuthCall -> AuthOutcome)
  : M Effect unit :=
  run emit PreventDefault in
  run emit (SetError (lit "")) in
  let* valid := validateForm r in
  if negb valid then ret tt
  else
    try_catch
      (run (if isLogin r
            then await_call auth (login (username r) (password r))
            else await_call auth
                   (register (username r) (email r) (password r))) in
       emit (RouterPush (lit "/")))
      (fun err =>
         emit (SetError
                 (if truthy (message err) then message err
                  else if isLogin r then lit "Invalid username or password"
                  else lit "Registration failed"))).

Definition submit auth (st : State) : State :=
  commit (effects (handleSubmit st auth)) st.

(** The auth call of the form's mode. *)
Definition the_call (r : State) : AuthCall :=
  if isLogin r then login (username r) (password r)
  else register (username r) (email r) (password r).

(** The inline messages of [validateForm]. *)
Definition validation_messages : list js_string :=
  [lit "Username must be at least 3 characters long";
   lit "Password must be at least 6 characters long";
   lit "Please enter a valid email address"].

(** The form with another text in the email field. *)
Definition with_email (e : js_string) (st : State) : State :=
  {| isLogin := isLogin st; username := username st; email := e;
     password := password st; error := error st |}.

(** The value [validateForm()] returns. *)
Definition valid (r : State) : bool :=
  match snd (validateForm r) with
  | Ok b => b
  | Throw _ => false
  end.

End Login.

(** ** The dashboard shell: [app/page.tsx] *)

Module Home.
Import JS.

Inductive Tab := market | discussion.

(** What the component reads from the auth context and the router hook;
    [router] is the identity of the object [useRouter()] returned. *)
Record Context := {
  isAuthenticated : bool;
  isLoading : bool;
  router : nat
}.

(** The element the render returns. *)
Inductive View :=
| Spinner                       (* the centred [CircularProgress] *)
| Null                          (* [return null] *)
| Dashboard (activeTab : Tab).  (* the [Container] with the tab content *)

Definition view (c : Context) (activeTab : Tab) : View :=
  if isLoading c then Spinner
  else if negb (isAuthenticated c) then Null
  else Dashboard activeTab.

Inductive Effect := RouterPush (router : nat) (path : js_string).

(** The body of the effect. *)
Definition redirect (c : Context) : list Effect :=
  if negb (isAuthenticated c) then [RouterPush (router c) (lit "/login")]
  else [].

(** The dependency array [[isAuthenticated, router]]. *)
Definition deps (c : Context) : bool * nat := (isAuthenticated c, router c).

Definition deps_eqb (d1 d2 : bool * nat) : bool :=
  Bool.eqb (fst d1) (fst d2) && Nat.eqb (snd d1) (snd d2).

(** React runs an effect after the first render ([prev = None]) and
    after each render whose dependencies differ from those of the
    previous render. *)
Definition effect_runs (prev : option (bool * nat)) (c : Context) : bool :=
  match prev with
  | None => true
  | Some d => negb (deps_eqb d (deps c))
  end.

(** One render pass of [Home]: the element returned and the effects
    run after it. *)
Definition render (prev : option (bool * nat)) (c : Context)
    (activeTab : Tab) : View * list Effect :=
  (view c activeTab, if effect_runs prev c then redirect c else []).

(** The life of a mounted instance: the successive renders, the first
    being the mount.  The result lists each pass's view and effects. *)
Fixpoint passes (prev : option (bool * nat)) (rs : list (Context * Tab))
  : list (View * list Effect) :=
  match rs with
  | [] => []
  | (c, tab) :: rs' => render prev c tab :: passes (Some (deps c)) rs'
  end.

Definition lifetime (rs : list (Context * Tab)) : list (View * list Effect) :=
  passes None rs.

End Home.

(** ** Concrete inputs *)

Module Sample.
Import JS Handler.

Definition alice : Discussion.User :=
  {| Discussion.user_username := lit "alice";
     Discussion.token := lit "t0k3n" |}.

Definition hello : Discussion.Message :=
  {| Discussion.id := 1%Z; Discussion.content := lit "hello";
     Discussion.username := lit "bob";
     Discussion.created_at := lit "2024-05-01T10:00:00" |}.

Definition reply : Discussion.Message :=
  {| Discussion.id := 2%Z; Discussion.content := lit " hi ";
     Discussion.username := lit "alice";
     Discussion.created_at := lit "2024-05-01T10:00:07" |}.

(** A feed with one message and " hi " typed into the input field. *)
Definition feed : Discussion.State :=
  {| Discussion.messages := [hello];
     Discussion.newMessage := lit " hi ";
     Discussion.error := lit "" |}.

(** The same feed with a space, a tab and a no-break space typed. *)
Definition blank_feed : Discussion.State :=
  {| Discussion.messages := [hello];
     Discussion.newMessage := [0x20; 0x09; 0xA0];
     Discussion.error := lit "" |}.

Definition post_ok : Request -> FetchOutcome Discussion.Message :=
  fun _ => Response true (Some reply).
Definition post_500 : Request -> FetchOutcome Discussion.Message :=
  fun _ => Response false None.
Definition get_ok : Request -> FetchOutcome (list Discussion.Message) :=
  fun _ => Response true (Some [reply]).
Definition get_down : Request -> FetchOutcome (list Discussion.Message) :=
  fun _ => NetworkError.

(** A refresh, a send and a key stroke, none of them failing. *)
Definition quiet_events : list Discussion.Event :=
  [Discussion.Refreshed get_ok; Discussion.Submitted post_ok;
   Discussion.Typed (lit "again")].

(** Mounted while logged in, one timer firing, then a logout. *)
Definition session : list Polling.Label :=
  [Polling.Mount; Polling.Elapse 10000; Polling.Tick 0;
   Polling.AuthChange false].

Definition after_logout : Polling.World :=
  match Polling.run_labels (Polling.initial true) session with
  | Some w => w
  | None => Polling.initial true
  end.

Definition registration : Login.State :=
  {| Login.isLogin := false; Login.username := lit "alice";
     Login.email := lit "alice@example.org";
     Login.password := lit "secret"; Login.error := lit "" |}.

Definition auth_ok : Login.AuthCall -> Login.AuthOutcome :=
  fun _ => Login.Resolved.

Definition logged_out : Home.Context :=
  {| Home.isAuthenticated := false; Home.isLoading := false;
     Home.router := 0 |}.

Definition loading : Home.Context :=
  {| Home.isAuthenticated := false; Home.isLoading := true;
     Home.router := 0 |}.

End Sample.

(** ** What the feed shows: the render of [components/Discussion.tsx] *)

Module DiscussionView.
Import JS Handler Discussion.

(** One message of the list as it is drawn. *)
Record Bubble := {
  key : Z;               (* [key={message.id}] *)
  own : bool;            (* the green style of the viewer's own messages *)
  author : js_string;
  posted : js_string;    (* [created_at], which the browser formats *)
  text : js_string
}.

Inductive View :=
| LoginPrompt            (* "Please login to participate in discussions" *)
| Feed (field : js_string) (error_line : option js_string)
       (bubbles : list Bubble).

(** [message.username === user?.username] *)
Definition is_own (user : option User) (m : Message) : bool :=
  match user with
  | Some u => bool_decide (username m = user_username u)
  | None => false
  end.

Definition bubble (user : option User) (m : Message) : Bubble :=
  {| key := id m; own := is_own user m; author := username m;
     posted := created_at m; text := content m |}.

Definition render (isAuthenticated : bool) (user : option User) (st : State)
  : View :=
  if negb isAuthenticated then LoginPrompt
  else Feed (newMessage st)
            (if truthy (error st) then Some (error st) else None)
            (map (bubble user) (messages st)).

End DiscussionView.

(** ** The fields and the mode buttons of [app/login/page.tsx] *)

Module LoginForm.
Import JS Handler Login.

(** [onChange] of the three text fields. *)
Definition setUsername (v : js_string) (st : State) : State :=
  {| isLogin := isLogin st; username := v; email := email st;
     password := password st; error := error st |}.

Definition setEmail (v : js_string) (st : State) : State :=
  {| isLogin := isLogin st; username := username st; email := v;
     password := password st; error := error st |}.

Definition setPassword (v : js_string) (st : State) : State :=
  {| isLogin := isLogin st; username := username st; email := email st;
     password := v; error := error st |}.

(** [onClick] of the Login ([true]) and Register ([false]) buttons:
    [setIsLogin(b); setError('')]. *)
Definition switch_mode (b : bool) (st : State) : State :=
  {| isLogin := b; username := username st; email := email st;
     password := password st; error := lit "" |}.

(** The form with another error string. *)
Definition with_error (e : js_string) (st : State) : State :=
  {| isLogin := isLogin st; username := username st; email := email st;
     password := password st; error := e |}.

(** The username an auth call carries. *)
Definition call_username (c : AuthCall) : js_string :=
  match c with
  | login u _ => u
  | register u _ _ => u
  end.

(** The message shown when the rejection carries none. *)
Definition fallback_message (r : State) : js_string :=
  if isLogin r then lit "Invalid username or password"
  else lit "Registration failed".

Definition navigations (es : list Effect) : list js_string :=
  omap (fun e => match e with RouterPush p => Some p | _ => None end) es.

End LoginForm.

(** ** Stock data and the panels of [app/page.tsx] *)

Module Stock.
Import JS Handler.

Section Values.

(** JSON numbers are IEEE doubles.  The dashboard only tests a number for
    truth and prints it, so the type of numbers, its truth test and its
    printing are left open.  So is the wording of two [TypeError]s, which
    differs between engines: that of a property read on [null] and that
    of an object that cannot be converted to a primitive value. *)
Context {number : Type}.
Variable number_truthy : number -> bool.
Variable NumberToString : number -> js_string.
Variable null_read_message : js_string.
Variable convert_message : js_string.

(** A value [response.json()] resolves to.  The members of an object are
    its own properties. *)
#[warnings="-register-all"]
Inductive Json :=
| JNull
| JBool (b : bool)
| JNumber (n : number)
| JString (s : js_string)
| JArray (items : list Json)
| JObject (members : list (js_string * Json)).

Fixpoint lookup_member (name : js_string) (members : list (js_string * Json))
  : option Json :=
  match members with
  | [] => None
  | (k, v) :: rest =>
      if bool_decide (k = name) then Some v else lookup_member name rest
  end.

(** [Array.prototype.join] on the printed elements, the first failing
    conversion ending it. *)
Fixpoint join (parts : list (Exn js_string)) : Exn js_string :=
  match parts with
  | [] => Ok []
  | Throw e :: _ => Throw e
  | [Ok p] => Ok p
  | Ok p :: rest =>
      match join rest with
      | Ok q => Ok (p ++ lit "," ++ q)
      | Throw e => Throw e
      end
  end.

(** ToString.  An array prints its elements joined by commas, [null]
    as nothing.  An object prints through [Object.prototype.toString]
    unless a member of its own named [toString] hides that method: a
    parsed member is never callable, and [valueOf] gives no primitive,
    so the conversion throws. *)
Fixpoint ToString (v : Json) : Exn js_string :=
  match v with
  | JNull => Ok (lit "null")
  | JBool true => Ok (lit "true")
  | JBool false => Ok (lit "false")
  | JNumber n => Ok (NumberToString n)
  | JString s => Ok s
  | JArray items =>
      join (map (fun e => match e with
                          | JNull => Ok []
                          | _ => ToString e
                          end) items)
  | JObject members =>
      match lookup_member (lit "toString") members with
      | Some _ => Throw (Error convert_message)
      | None => Ok (lit "[object Object]")
      end
  end.

(** [data.error]: [undefined] ([None]) when there is no such property;
    the read throws on [null]. *)
Definition get_error (data : Json) : Exn (option Json) :=
  match data with
  | JNull => Throw (Error null_read_message)
  | JObject members => Ok (lookup_member (lit "error") members)
  | JBool _ | JNumber _ | JString _ | JArray _ => Ok None
  end.

(** ToBoolean *)
Definition truthy_value (v : option Json) : bool :=
  match v with
  | None => false
  | Some JNull => false
  | Some (JBool b) => b
  | Some (JNumber n) => number_truthy n
  | Some (JString s) => truthy s
  | Some (JArray _) | Some (JObject _) => true
  end.

(** The message [new Error(v)] gets, when the conversion does not
    throw; without an argument the message is empty. *)
Definition error_message (v : option Json) : Exn js_string :=
  match v with
  | Some x => ToString x
  | None => Ok (lit "")
  end.

(** Four of the [useState] cells of [Home]. *)
Record State := {
  selectedStock : option js_string;
  stockData : option Json;
  loading : bool;
  error : option js_string
}.

Definition initial : State :=
  {| selectedStock := None; stockData := None; loading := false;
     error := None |}.

Inductive Effect :=
| Fetch (req : Request)
| SetSelectedStock (s : js_string)
| SetStockData (d : Json)
| SetLoading (b : bool)
| SetError (e : option js_string).

Definition apply_effect (st : State) (e : Effect) : State :=
  match e with
  | SetSelectedStock s =>
      {| selectedStock := Some s; stockData := stockData st;
         loading := loading st; error := error st |}
  | SetStockData d =>
      {| selectedStock := selectedStock st; stockData := Some d;
         loading := loading st; error := error st |}
  | SetLoading b =>
      {| selectedStock := selectedStock st; stockData := stockData st;
         loading := b; error := error st |}
  | SetError e =>
      {| selectedStock := selectedStock st; stockData := stockData st;
         loading := loading st; error := e |}
  | Fetch _ => st
  end.

Definition commit (es : list Effect) (st : State) : State :=
  fold_left apply_effect es st.

Definition network_calls (es : list Effect) : list Request :=
  omap (fun e => match e with Fetch r => Some r | _ => None end) es.

(** What [fetch] settles to: a rejection, or a response with its [ok]
    flag whose [json()] resolves to a value or rejects. *)
Inductive Reply :=
| Rejected (e : Thrown)
| Responded (ok : bool) (json : Exn Json).

Definition API_BASE_URL : js_string := lit "http://localhost:5001".

(** [fetch(`${API_BASE_URL}/api/stock/${symbol}`)]: no options. *)
Definition stock_request (symbol : js_string) : Request :=
  {| url := API_BASE_URL ++ lit "/api/stock/" ++ symbol;
     method := lit "GET"; headers := []; body := None |}.

Definition await_fetch (net : Request -> Reply) (req : Request)
  : M Effect (Exn Json) :=
  ([Fetch req],
   match net req with
   | Rejected e => Throw e
   | Responded _ json => Ok json
   end).

Definition lift {A} (r : Exn A) : M Effect A := ([], r).

(** [try { m } finally { f }] *)
Definition try_finally {A} (m : M Effect A) (f : M Effect unit)
  : M Effect A :=
  match f with
  | (w', Ok _) => (fst m ++ w', snd m)
  | (w', Throw e) => (fst m ++ w', Throw e)
  end.

Definition message (err : Thrown) : js_string :=
  match err with Error m => m end.

Local Open Scope handler_scope.

(** Everything thrown inside the [try] is an [Error], so the handler of
    the [catch] takes the first branch of its conditional. *)
Definition fetchStockData (symbol : js_string) (net : Request -> Reply)
  : M Effect unit :=
  try_finally
    (try_catch
       (run emit (SetLoading true) in
        run emit (SetError None) in
        let* response := await_fetch net (stock_request symbol) in
        let* data := lift response in
        let* err := lift (get_error data) in
        run (if truthy_value err
             then let* msg := lift (error_message err) in
                  throw (Error msg)
             else ret tt) in
        run emit (SetStockData data) in
        emit (SetSelectedStock symbol))
       (fun err => emit (SetError (Some (message err)))))
    (emit (SetLoading false)).

(** [onStockSelect] of the search bar. *)
Definition onStockSelect (symbol : js_string) : M Effect unit :=
  emit (SetSelectedStock symbol).

Definition load (symbol : js_string) (net : Request -> Reply) (st : State)
  : State :=
  commit (effects (fetchStockData symbol net)) st.

Definition select (symbol : js_string) (st : State) : State :=
  commit (effects (onStockSelect symbol)) st.

(** The reply carries a value whose [error] property is missing or
    falsy. *)
Definition delivers (net : Request -> Reply) (req : Request) (data : Json)
  : Prop :=
  exists ok err,
    net req = Responded ok (Ok data)
    /\ get_error data = Ok err /\ truthy_value err = false.

(** Every other reply, with the message that ends up in the state. *)
Definition fails_with (net : Request -> Reply) (req : Request)
    (msg : js_string) : Prop :=
  match net req with
  | Rejected e => msg = message e
  | Responded _ (Throw e) => msg = message e
  | Responded _ (Ok data) =>
      match get_error data with
      | Throw e => msg = message e
      | Ok err =>
          truthy_value err = true
          /\ msg = match error_message err with
                   | Ok m => m
                   | Throw e => message e
                   end
      end
  end.

(** The left-hand column of the market tab ([selectedStock ? ... : ...]):
    the charts and news of a symbol, or the invitation to search. *)
Inductive Detail :=
| SearchHint
| Charts (symbol : js_string).

Inductive Content :=
| MarketContent (detail : Detail)
| DiscussionContent.

Definition detail (st : State) : Detail :=
  match selectedStock st with
  | Some s => if truthy s then Charts s else SearchHint
  | None => SearchHint
  end.

Definition content (activeTab : Home.Tab) (st : State) : Content :=
  match activeTab with
  | Home.market => MarketContent (detail st)
  | Home.discussion => DiscussionContent
  end.

End Values.

End Stock.

(** ** The feed inside the dashboard

    [Home] renders [<Discussion />] in one place, the discussion tab of
    the dashboard; the spinner, [null] and the market tab do not contain
    it.  A render of [Home] therefore mounts the feed, keeps it, or
    unmounts it. *)

Module App.
Import JS.

Definition shows_feed (c : Home.Context) (tab : Home.Tab) : bool :=
  match Home.view c tab with
  | Home.Dashboard Home.discussion => true
  | Home.Dashboard Home.market | Home.Spinner | Home.Null => false
  end.

(** The tab buttons are part of the dashboard. *)
Definition shows_buttons (c : Home.Context) (tab : Home.Tab) : bool :=
  match Home.view c tab with
  | Home.Dashboard _ => true
  | Home.Spinner | Home.Null => false
  end.

Record State := {
  context : Home.Context;
  activeTab : Home.Tab;
  feed : Polling.World
}.

(** [Home] is mounted with the market tab active. *)
Definition initial (c : Home.Context) : State :=
  {| context := c; activeTab := Home.market;
     feed := Polling.initial (Home.isAuthenticated c) |}.

(** What a render of [Home] with context [c] and tab [tab] means for a
    feed in world [w]: the flag of the auth context reaches the feed
    when it is rendered; a feed that is no longer rendered is unmounted
    without being rendered again. *)
Definition reconcile (c : Home.Context) (tab : Home.Tab) (w : Polling.World)
  : list Polling.Label :=
  let flag :=
    if Bool.eqb (Home.isAuthenticated c) (Polling.isAuthenticated w) then []
    else [Polling.AuthChange (Home.isAuthenticated c)] in
  match Polling.mounted w, shows_feed c tab with
  | true, true => match flag with [] => [Polling.Rerender] | _ => flag end
  | true, false => Polling.Unmount :: flag
  | false, true => flag ++ [Polling.Mount]
  | false, false => flag
  end.

Inductive Event :=
| ContextChange (c : Home.Context)   (* login, logout, end of loading *)
| SelectTab (tab : Home.Tab)         (* the Market and Discussion buttons *)
| Elapse (d : N)
| Tick (handle : nat).

Definition with_feed (a : State) (w : Polling.World) : State :=
  {| context := context a; activeTab := activeTab a; feed := w |}.

Definition step_fn (a : State) (ev : Event) : option State :=
  match ev with
  | ContextChange c =>
      match Polling.run_labels (feed a)
              (reconcile c (activeTab a) (feed a)) with
      | Some w => Some {| context := c; activeTab := activeTab a; feed := w |}
      | None => None
      end
  | SelectTab tab =>
      if shows_buttons (context a) (activeTab a) then
        match Polling.run_labels (feed a)
                (reconcile (context a) tab (feed a)) with
        | Some w =>
            Some {| context := context a; activeTab := tab; feed := w |}
        | None => None
        end
      else None
  | Elapse d =>
      match Polling.step_fn (feed a) (Polling.Elapse d) with
      | Some w => Some (with_feed a w)
      | None => None
      end
  | Tick h =>
      match Polling.step_fn (feed a) (Polling.Tick h) with
      | Some w => Some (with_feed a w)
      | None => None
      end
  end.

Fixpoint run_events (a : State) (evs : list Event) : option State :=
  match evs with
  | [] => Some a
  | ev :: evs' =>
      match step_fn a ev with
      | Some a1 => run_events a1 evs'
      | None => None
      end
  end.

Definition reachable (a : State) : Prop :=
  exists c evs, run_events (initial c) evs = Some a.

(** The feed is where [Home] puts it, sees the flag of the auth
    context, and is in one of the worlds of [Polling.polling_inv]. *)
Definition app_inv (a : State) : Prop :=
  Polling.polling_inv (feed a)
  /\ Polling.mounted (feed a) = shows_feed (context a) (activeTab a)
  /\ Polling.isAuthenticated (feed a) = Home.isAuthenticated (context a).

End App.

(** ** The pace of the reads of the feed *)

Module Pace.
Import Polling.

(** Every read of the feed lies in the past, and a timer is due no
    earlier than 10 s after the latest of them. *)
Definition paced (w : World) : Prop :=
  (forall time c, In (time, c) (fetched w) -> time <= now w)
  /\ (forall h t time c,
        timers w !! h = Some t -> In (time, c) (fetched w) ->
        time + 10000 <= due t).

End Pace.

(** ** More concrete inputs *)

Module Scenario.
Import JS Handler.

(** The server accepts the message on the second attempt. *)
Definition post_down : Request -> FetchOutcome Discussion.Message :=
  fun _ => NetworkError.

(** A feed read that returns an older message only. *)
Definition get_old : Request -> FetchOutcome (list Discussion.Message) :=
  fun _ => Response true (Some [Sample.hello]).

(** Logged in on the discussion tab for ten seconds. *)
Definition polling_session : list Polling.Label :=
  [Polling.Mount; Polling.Elapse 10000].

Definition polling : Polling.World :=
  match Polling.run_labels (Polling.initial true) polling_session with
  | Some w => w
  | None => Polling.initial true
  end.

Definition ticked : Polling.World :=
  match Polling.step_fn polling (Polling.Tick 0) with
  | Some w => w
  | None => polling
  end.

(** The sample registration with a mistyped email. *)
Definition bad_email : Login.State :=
  {| Login.isLogin := false; Login.username := lit "alice";
     Login.email := lit "alice.example.org";
     Login.password := lit "secret"; Login.error := lit "" |}.

(** A form whose three fields would all be refused. *)
Definition all_wrong : Login.State :=
  {| Login.isLogin := false; Login.username := lit " a ";
     Login.email := lit ""; Login.password := lit "123";
     Login.error := lit "" |}.

Definition auth_taken : Login.AuthCall -> Login.AuthOutcome :=
  fun _ => Login.Rejected (Error (lit "Username already exists")).

Definition auth_silent : Login.AuthCall -> Login.AuthOutcome :=
  fun _ => Login.Rejected (Error (lit "")).

(** A router object and a viewer who is logged in. *)
Definition logged_in : Home.Context :=
  {| Home.isAuthenticated := true; Home.isLoading := false;
     Home.router := 0 |}.

(** Numbers taken to be integers, for the examples. *)
Fixpoint digits (fuel : nat) (n : N) : js_string :=
  match fuel with
  | O => []
  | S fuel' =>
      (if n <? 10 then [] else digits fuel' (n / 10)) ++ [48 + n mod 10]
  end.

Definition print_integer (z : Z) : js_string :=
  match z with
  | Z0 => lit "0"
  | Zpos p => digits (Pos.to_nat (Pos.size p)) (Npos p)
  | Zneg p => lit "-" ++ digits (Pos.to_nat (Pos.size p)) (Npos p)
  end.

Definition nonzero (z : Z) : bool := negb (Z.eqb z 0).

Definition null_read : js_string :=
  lit "Cannot read properties of null (reading 'error')".

Definition no_primitive : js_string :=
  lit "Cannot convert object to primitive value".

(** A quote for AAPL, and the body the server sends for a symbol it
    does not know. *)
Definition quote : Stock.Json (number := Z) :=
  Stock.JObject [(lit "symbol", Stock.JString (lit "AAPL"));
                 (lit "price", Stock.JNumber 189%Z);
                 (lit "error", Stock.JString (lit ""))].

Definition unknown_symbol : Stock.Json (number := Z) :=
  Stock.JObject [(lit "error", Stock.JString (lit "Symbol not found"))].

(** The quote arrives with status 500; the refusal with status 200. *)
Definition stock_quote : Request -> Stock.Reply :=
  fun _ => Stock.Responded false (Ok quote).

Definition stock_unknown : Request -> Stock.Reply :=
  fun _ => Stock.Responded true (Ok unknown_symbol).

Definition stock_offline : Request -> Stock.Reply (number := Z) :=
  fun _ => Stock.Rejected (Error (lit "Failed to fetch")).

Definition watching : Stock.State (number := Z) :=
  {| Stock.selectedStock := Some (lit "MSFT");
     Stock.stockData := Some (Stock.JString (lit "old"));
     Stock.loading := false;
     Stock.error := Some (lit "earlier") |}.

(** A logged-in viewer opens the discussion tab, stays ten seconds and
    goes back to the market tab. *)
Definition visit : list App.Event :=
  [App.SelectTab Home.discussion; App.Elapse 10000;
   App.SelectTab Home.market].

Definition back_on_market : App.State :=
  match App.run_events (App.initial logged_in) visit with
  | Some a => a
  | None => App.initial logged_in
  end.

End Scenario.

(** * Properties *)

(** ** Strings *)

Module JSFacts.
Import JS.

Lemma trimStart_nil (s : js_string) :
  trimStart s = [] <-> blank s = true.
Proof.
  induction s as [|c r IH]; cbn; [tauto|].
  destruct (is_white_space c); cbn; [exact IH|].
  split; discriminate.
Qed.

Lemma blank_app (s t : js_string) : blank (s ++ t) = blank s && blank t.
Proof. apply forallb_app. Qed.

Lemma blank_rev (s : js_string) : blank (rev s) = blank s.
Proof.
  induction s as [|c r IH]; [reflexivity|].
  cbn [rev]. rewrite blank_app, IH. cbn.
  rewrite andb_true_r. apply andb_comm.
Qed.

Lemma blank_trimStart (s : js_string) : blank (trimStart s) = blank s.
Proof.
  induction s as [|c r IH]; [reflexivity|].
  cbn. destruct (is_white_space c) eqn:E; cbn; [exact IH|].
  now rewrite E.
Qed.

Lemma trim_nil (s : js_string) : trim s = [] <-> blank s = true.
Proof.
  unfold trim, trimEnd.
  rewrite <- (blank_trimStart s), <- (blank_rev (trimStart s)).
  rewrite <- trimStart_nil.
  split; intros H.
  - apply (f_equal (@rev _)) in H. now rewrite rev_involutive in H.
  - now rewrite H.
Qed.

(** The emptiness test of [handleSubmit]: [!s.trim()]. *)
Lemma truthy_trim (s : js_string) : truthy (trim s) = negb (blank s).
Proof.
  destruct (blank s) eqn:E.
  - apply trim_nil in E. now rewrite E.
  - destruct (trim s) eqn:T; [|reflexivity].
    apply trim_nil in T. congruence.
Qed.

(** Trimming only removes code units. *)
Lemma trimStart_length (s : js_string) :
  (List.length (trimStart s) <= List.length s)%nat.
Proof.
  induction s as [|c r IH]; cbn; [lia|].
  destruct (is_white_space c); cbn; lia.
Qed.

Lemma trim_length (s : js_string) : length (trim s) <= length s.
Proof.
  unfold length, trim, trimEnd.
  rewrite length_rev.
  pose proof (trimStart_length (rev (trimStart s))) as H1.
  rewrite length_rev in H1.
  pose proof (trimStart_length s). lia.
Qed.

(** *** Quoting a string and reading it back *)

Lemma hex_value_digit (n : N) : n < 16 -> hex_value (hex_digit n) = Some n.
Proof.
  intros H. unfold hex_value, hex_digit.
  destruct (n <? 10) eqn:E.
  - apply N.ltb_lt in E.
    replace ((48 <=? 48 + n) && (48 + n <=? 57)) with true
      by (symmetry; apply andb_true_iff; split; apply N.leb_le; lia).
    f_equal. lia.
  - apply N.ltb_ge in E.
    replace ((48 <=? 87 + n) && (87 + n <=? 57)) with false
      by (symmetry; apply andb_false_iff; right; apply N.leb_gt; lia).
    replace ((97 <=? 87 + n) && (87 + n <=? 102)) with true
      by (symmetry; apply andb_true_iff; split; apply N.leb_le; lia).
    f_equal. lia.
Qed.

Lemma hex4_UnicodeEscape (c : code_unit) :
  c < 65536 ->
  hex4 (hex_digit ((c / 4096) mod 16)) (hex_digit ((c / 256) mod 16))
       (hex_digit ((c / 16) mod 16)) (hex_digit (c mod 16)) = Some c.
Proof.
  intros H. unfold hex4.
  rewrite !hex_value_digit by (apply N.mod_lt; discriminate).
  f_equal.
  pose proof (N.div_mod c 16 ltac:(discriminate)) as E0.
  pose proof (N.div_mod (c / 16) 16 ltac:(discriminate)) as E1.
  pose proof (N.div_mod (c / 16 / 16) 16 ltac:(discriminate)) as E2.
  rewrite !N.Div0.div_div in E1, E2.
  change (16 * 16) with 256 in *.
  rewrite N.Div0.div_div in E2. change (256 * 16) with 4096 in *.
  assert (c / 4096 < 16) by (apply N.Div0.div_lt_upper_bound; lia).
  rewrite (N.mod_small (c / 4096) 16) by assumption.
  lia.
Qed.

(** What the reader makes of the quoted form of one code point. *)
Lemma unquote_quote_unit (c : code_unit) (tail : js_string) :
  unquote_body (quote_unit c ++ tail) =
    match unquote_body tail with
    | Some (v, rest) => Some (c :: v, rest)
    | None => None
    end.
Proof.
  unfold quote_unit.
  repeat match goal with
         | |- context [if ?c =? ?k then _ else _] =>
             destruct (N.eqb_spec c k) as [->|?]; [reflexivity|]
         end.
  destruct ((c <? 32) || is_leading_surrogate c || is_trailing_surrogate c)
    eqn:E.
  - assert (c < 65536) as Hc.
    { unfold is_leading_surrogate, is_trailing_surrogate in E.
      rewrite !orb_true_iff, !andb_true_iff, N.ltb_lt, !N.leb_le in E. lia. }
    cbn [UnicodeEscape app unquote_body].
    change (92 =? 34) with false. change (92 =? 92) with true.
    change (117 =? 117) with true. cbv iota.
    rewrite (hex4_UnicodeEscape c Hc). reflexivity.
  - rewrite !orb_false_iff, N.ltb_ge in E. destruct E as [[E _] _].
    cbn [app unquote_body].
    destruct (N.eqb_spec c 34); [congruence|].
    destruct (N.eqb_spec c 92); [congruence|].
    destruct (N.ltb_spec c 32); [lia|]. reflexivity.
Qed.

Lemma unquote_surrogate (c : code_unit) (tail : js_string) :
  is_leading_surrogate c || is_trailing_surrogate c = true ->
  unquote_body (c :: tail) =
    match unquote_body tail with
    | Some (v, rest) => Some (c :: v, rest)
    | None => None
    end.
Proof.
  unfold is_leading_surrogate, is_trailing_surrogate.
  rewrite !orb_true_iff, !andb_true_iff, !N.leb_le. intros H.
  cbn [unquote_body].
  destruct (N.eqb_spec c 34); [lia|].
  destruct (N.eqb_spec c 92); [lia|].
  destruct (N.ltb_spec c 32); [lia|]. reflexivity.
Qed.

Lemma unquote_quote_body (s rest : js_string) :
  unquote_body (quote_body s ++ 34 :: rest) = Some (s, rest).
Proof.
  remember (List.length s) as n eqn:Hn.
  revert s Hn. induction n as [n IH] using lt_wf_ind. intros s Hn.
  destruct s as [|c r]; [reflexivity|].
  cbn [quote_body].
  assert (unquote_body (quote_body r ++ 34 :: rest) = Some (r, rest)) as Hr.
  { apply (IH (List.length r)); [subst n; cbn; lia | reflexivity]. }
  destruct (is_leading_surrogate c) eqn:Lc.
  - destruct r as [|d r'].
    + rewrite unquote_quote_unit. reflexivity.
    + destruct (is_trailing_surrogate d) eqn:Td.
      * cbn [app].
        rewrite (unquote_surrogate c) by (rewrite Lc; reflexivity).
        rewrite (unquote_surrogate d) by (rewrite Td; apply orb_true_r).
        rewrite (IH (List.length r'));
          [reflexivity | subst n; cbn; lia | reflexivity].
      * rewrite <- app_assoc, unquote_quote_unit, Hr. reflexivity.
  - rewrite <- app_assoc, unquote_quote_unit, Hr. reflexivity.
Qed.

Lemma parse_QuoteJSONString (s rest : js_string) :
  parse_string_literal (QuoteJSONString s ++ rest) = Some (s, rest).
Proof.
  unfold QuoteJSONString. cbn [app parse_string_literal].
  change (34 =? 34) with true. cbv iota.
  rewrite <- app_assoc. apply unquote_quote_body.
Qed.

End JSFacts.

(** ** The discussion feed *)

Module DiscussionFacts.
Import JS Handler Discussion JSFacts.

(** The run of [handleSubmit] when the input is blank. *)
Lemma handleSubmit_blank user r net :
  blank (newMessage r) = true ->
  handleSubmit user r net = ([PreventDefault], Ok tt).
Proof.
  intros B. unfold handleSubmit.
  rewrite truthy_trim, B. reflexivity.
Qed.

(** The run of [handleSubmit] when the POST settles with a message. *)
Lemma handleSubmit_ok user r net m :
  blank (newMessage r) = false ->
  post_succeeds net (post_request user (newMessage r)) m ->
  handleSubmit user r net =
    ([PreventDefault; Fetch (post_request user (newMessage r));
      SetMessages (m :: messages r); SetNewMessage []], Ok tt).
Proof.
  intros B S. unfold handleSubmit, post_succeeds in *.
  rewrite truthy_trim, B. cbn.
  unfold await_fetch. rewrite S. reflexivity.
Qed.

(** The run of [handleSubmit] when the POST fails. *)
Lemma handleSubmit_failed user r net :
  blank (newMessage r) = false ->
  post_fails net (post_request user (newMessage r)) ->
  handleSubmit user r net =
    ([PreventDefault; Fetch (post_request user (newMessage r));
      SetError (lit "Failed to send message")], Ok tt).
Proof.
  intros B F. unfold handleSubmit, post_fails in *.
  rewrite truthy_trim, B. cbn.
  unfold await_fetch.
  destruct (net _) as [|ok json]; [reflexivity|].
  destruct ok; cbn.
  - destruct F as [F|F]; [discriminate|]. subst json. reflexivity.
  - reflexivity.
Qed.

Lemma fetchMessages_ok user net ms :
  get_succeeds net (get_request user) ms ->
  fetchMessages user net =
    ([Fetch (get_request user); SetMessages ms], Ok tt).
Proof.
  intros S. unfold fetchMessages, get_succeeds, await_fetch in *.
  cbn. rewrite S. reflexivity.
Qed.

Lemma fetchMessages_failed user net :
  get_fails net (get_request user) ->
  fetchMessages user net =
    ([Fetch (get_request user); SetError (lit "Failed to load messages")],
     Ok tt).
Proof.
  intros F. unfold fetchMessages, get_fails, await_fetch in *. cbn.
  destruct (net _) as [|ok json]; [reflexivity|].
  destruct ok; cbn.
  - destruct F as [F|F]; [discriminate|]. subst json. reflexivity.
  - reflexivity.
Qed.

(** C1. When the new-message field is empty or holds white space only,
    submitting the form issues no network request and calls no state
    setter: whatever the state is when the handler ends, the message
    list, the input field and the error string are what they were. *)
Theorem C1_blank_submit_does_nothing
    (user : option User) (net : Request -> FetchOutcome Message)
    (r cur : State) :
  blank (newMessage r) = true ->
  network_calls (effects (handleSubmit user r net)) = []
  /\ commit (effects (handleSubmit user r net)) cur = cur
  /\ submit user net r = r.
Proof.
  intros B. unfold submit. rewrite (handleSubmit_blank _ _ _ B).
  repeat split.
Qed.

Lemma C1_blank_submit_does_nothing_witness :
  blank (newMessage Sample.blank_feed) = true
  /\ network_calls
       (effects (handleSubmit (Some Sample.alice) Sample.blank_feed
                   Sample.post_ok)) = []
  /\ submit (Some Sample.alice) Sample.post_ok Sample.blank_feed
     = Sample.blank_feed.
Proof.
  split; [reflexivity|].
  destruct (C1_blank_submit_does_nothing (Some Sample.alice) Sample.post_ok
              Sample.blank_feed Sample.blank_feed eq_refl) as (H1 & _ & H3).
  split; assumption.
Defined.

(** C2. When the input is not blank and the POST settles with a message
    object [m], submitting the form in state [st] issues exactly that
    POST, makes the message list [m] followed by the list of [st], and
    empties the input field; the error string is not touched. *)
Theorem C2_successful_send_prepends
    (user : option User) (net : Request -> FetchOutcome Message)
    (st : State) (m : Message) :
  blank (newMessage st) = false ->
  post_succeeds net (post_request user (newMessage st)) m ->
  messages (submit user net st) = m :: messages st
  /\ List.length (messages (submit user net st))
     = S (List.length (messages st))
  /\ newMessage (submit user net st) = lit ""
  /\ error (submit user net st) = error st
  /\ network_calls (effects (handleSubmit user st net))
     = [post_request user (newMessage st)]
  /\ (forall cur : State,
        messages (commit (effects (handleSubmit user st net)) cur)
        = m :: messages st
        /\ newMessage (commit (effects (handleSubmit user st net)) cur)
           = lit "").
Proof.
  intros B S. unfold submit. rewrite (handleSubmit_ok _ _ _ _ B S).
  cbn. repeat split.
Qed.

Lemma C2_successful_send_prepends_witness :
  messages (submit (Some Sample.alice) Sample.post_ok Sample.feed)
  = [Sample.reply; Sample.hello]
  /\ newMessage (submit (Some Sample.alice) Sample.post_ok Sample.feed) = [].
Proof.
  destruct (C2_successful_send_prepends (Some Sample.alice) Sample.post_ok
              Sample.feed Sample.reply eq_refl eq_refl)
    as (H1 & _ & H3 & _).
  split; assumption.
Defined.

(** C3. When the GET fails (rejected request, status not ok, or a body
    that is not JSON), [fetchMessages] leaves the message list as it
    was and sets the error string to "Failed to load messages". *)
Theorem C3_failed_fetch_keeps_messages
    (user : option User) (net : Request -> FetchOutcome (list Message))
    (st : State) :
  get_fails net (get_request user) ->
  messages (refresh user net st) = messages st
  /\ newMessage (refresh user net st) = newMessage st
  /\ error (refresh user net st) = lit "Failed to load messages".
Proof.
  intros F. unfold refresh. rewrite (fetchMessages_failed _ _ F).
  cbn. repeat split.
Qed.

Lemma C3_failed_fetch_keeps_messages_witness :
  messages (refresh (Some Sample.alice) Sample.get_down Sample.feed)
  = [Sample.hello]
  /\ error (refresh (Some Sample.alice) Sample.get_down Sample.feed)
     = lit "Failed to load messages".
Proof.
  destruct (C3_failed_fetch_keeps_messages (Some Sample.alice)
              Sample.get_down Sample.feed I) as (H1 & _ & H3).
  split; assumption.
Defined.

(** C4. When the GET settles with the array [ms], [fetchMessages]
    makes the message list exactly [ms]: a message of the new list is a
    message of the response, whatever the list was before. *)
Theorem C4_successful_fetch_replaces
    (user : option User) (net : Request -> FetchOutcome (list Message))
    (st : State) (ms : list Message) :
  get_succeeds net (get_request user) ms ->
  messages (refresh user net st) = ms
  /\ (forall m, In m (messages (refresh user net st)) -> In m ms)
  /\ (forall m, In m (messages st) -> ~ In m ms ->
                ~ In m (messages (refresh user net st))).
Proof.
  intros S. unfold refresh. rewrite (fetchMessages_ok _ _ _ S).
  cbn. repeat split; auto.
Qed.

Lemma C4_successful_fetch_replaces_witness :
  messages (refresh (Some Sample.alice) Sample.get_ok Sample.feed)
  = [Sample.reply].
Proof.
  apply (C4_successful_fetch_replaces (Some Sample.alice) Sample.get_ok
           Sample.feed [Sample.reply] eq_refl).
Defined.

(** C8. When the input is not blank and the POST fails, submitting the
    form sets the error string to "Failed to send message" and leaves
    the input field (and the message list) as it was. *)
Theorem C8_failed_send_keeps_input
    (user : option User) (net : Request -> FetchOutcome Message)
    (st : State) :
  blank (newMessage st) = false ->
  post_fails net (post_request user (newMessage st)) ->
  error (submit user net st) = lit "Failed to send message"
  /\ newMessage (submit user net st) = newMessage st
  /\ messages (submit user net st) = messages st.
Proof.
  intros B F. unfold submit. rewrite (handleSubmit_failed _ _ _ B F).
  cbn. repeat split.
Qed.

Lemma C8_failed_send_keeps_input_witness :
  error (submit (Some Sample.alice) Sample.post_500 Sample.feed)
  = lit "Failed to send message"
  /\ newMessage (submit (Some Sample.alice) Sample.post_500 Sample.feed)
     = lit " hi ".
Proof.
  destruct (C8_failed_send_keeps_input (Some Sample.alice) Sample.post_500
              Sample.feed eq_refl (or_introl eq_refl)) as (H1 & H2 & _).
  split; assumption.
Defined.

(** An event without a failed request leaves the error string alone. *)
Lemma react_error user st e :
  succeeded user st e -> error (react user st e) = error st.
Proof.
  destruct e as [net|net|value]; cbn.
  - intros [ms S]. unfold refresh.
    now rewrite (fetchMessages_ok _ _ _ S).
  - intros [B|[m S]]; unfold submit.
    + now rewrite (handleSubmit_blank _ _ _ B).
    + destruct (blank (newMessage st)) eqn:B.
      * now rewrite (handleSubmit_blank _ _ _ B).
      * now rewrite (handleSubmit_ok _ _ _ _ B S).
  - reflexivity.
Qed.

(** C9. A successful [fetchMessages] and a successful send leave the
    error string as it is, and so does any sequence of refreshes,
    submissions and key strokes in which no request fails: an error set
    by an earlier failure stays until another failure overwrites it. *)
Theorem C9_success_never_clears_error
    (user : option User) (st : State) (es : list Event) :
  all_succeeded user st es ->
  error (fold_left (react user) es st) = error st.
Proof.
  revert st. induction es as [|e es IH]; intros st; cbn; [reflexivity|].
  intros [S A]. rewrite (IH _ A). now apply react_error.
Qed.

Lemma C9_success_never_clears_error_witness :
  error (fold_left (react (Some Sample.alice)) Sample.quiet_events
           (refresh (Some Sample.alice) Sample.get_down Sample.feed))
  = lit "Failed to load messages".
Proof.
  apply (C9_success_never_clears_error (Some Sample.alice)
           (refresh (Some Sample.alice) Sample.get_down Sample.feed)
           Sample.quiet_events).
  repeat split.
  - exists [Sample.reply]. reflexivity.
  - right. exists Sample.reply. reflexivity.
Defined.

Lemma parse_stringify_content (s : js_string) :
  parse_content (stringify_content s) = Some s.
Proof.
  unfold stringify_content, parse_content.
  change ([123] ++ ?x) with (123 :: x).
  change (123 =? 123) with true. cbv iota.
  rewrite parse_QuoteJSONString.
  change ([58] ++ ?x) with (58 :: x).
  change (58 =? 58) with true.
  rewrite bool_decide_eq_true_2 by reflexivity.
  cbn [andb]. cbv iota.
  rewrite parse_QuoteJSONString. reflexivity.
Qed.

Lemma stringify_content_inj (s t : js_string) :
  stringify_content s = stringify_content t -> s = t.
Proof.
  intros H. apply (f_equal parse_content) in H.
  rewrite !parse_stringify_content in H. congruence.
Qed.

(** A submission of a text that is not blank issues one request, the
    POST of that text, however the request settles. *)
Lemma handleSubmit_calls user r net :
  blank (newMessage r) = false ->
  network_calls (effects (handleSubmit user r net))
  = [post_request user (newMessage r)].
Proof.
  intros B. unfold handleSubmit. rewrite truthy_trim, B. cbn.
  unfold await_fetch.
  destruct (net _) as [|ok json]; [reflexivity|].
  destruct ok, json; reflexivity.
Qed.

(** C10. When the input is not empty after trimming, the form issues
    one request, a POST to the discussions endpoint whose body is the
    JSON text of the object with the single member [content] holding
    the input as typed: reading the body back gives the input itself,
    and when trimming would change the input the body is not the JSON
    text of the trimmed input. *)
Theorem C10_post_body_is_untrimmed
    (user : option User) (net : Request -> FetchOutcome Message)
    (st : State) :
  truthy (trim (newMessage st)) = true ->
  exists req,
    network_calls (effects (handleSubmit user st net)) = [req]
    /\ url req = endpoint
    /\ method req = lit "POST"
    /\ body req = Some (stringify_content (newMessage st))
    /\ match body req with
       | Some text => parse_content text
       | None => None
       end = Some (newMessage st)
    /\ (trim (newMessage st) <> newMessage st ->
        body req <> Some (stringify_content (trim (newMessage st)))).
Proof.
  intros T. rewrite truthy_trim in T. apply negb_true_iff in T.
  exists (post_request user (newMessage st)).
  split; [now apply handleSubmit_calls|].
  repeat split.
  - cbn [body post_request]. apply parse_stringify_content.
  - intros Ne E. cbn [body post_request] in E.
    apply (inj Some), stringify_content_inj in E. congruence.
Qed.

Lemma C10_post_body_is_untrimmed_witness :
  exists req,
    network_calls
      (effects (handleSubmit (Some Sample.alice) Sample.feed Sample.post_ok))
    = [req]
    /\ body req = Some (stringify_content (lit " hi "))
    /\ body req <> Some (stringify_content (lit "hi")).
Proof.
  destruct (C10_post_body_is_untrimmed (Some Sample.alice) Sample.post_ok
              Sample.feed eq_refl) as (req & H1 & _ & _ & H4 & _ & H6).
  exists req. repeat split; [exact H1 | exact H4 |].
  apply H6. discriminate.
Defined.

End DiscussionFacts.

(** ** Polling of the feed *)

Module PollingFacts.
Import Polling.

Lemma inv_initial auth : polling_inv (initial auth).
Proof. split; [reflexivity|discriminate]. Qed.

(** The cleanup function empties the timer table and changes nothing else. *)
Lemma inv_run_cleanup w :
  polling_inv w ->
  timers (run_cleanup w) = ∅
  /\ cleanup (run_cleanup w) = None
  /\ mounted (run_cleanup w) = mounted w
  /\ isAuthenticated (run_cleanup w) = isAuthenticated w
  /\ now (run_cleanup w) = now w
  /\ fetched (run_cleanup w) = fetched w.
Proof.
  unfold polling_inv, run_cleanup.
  destruct (cleanup w) as [h|] eqn:C.
  - intros (_ & _ & t & T & _). cbn. rewrite T.
    rewrite delete_singleton_eq. repeat split.
  - intros [T _]. rewrite C. repeat split. exact T.
Qed.

Lemma inv_run_effect w :
  timers w = ∅ -> mounted w = true -> polling_inv (run_effect w).
Proof.
  intros T M. unfold run_effect, polling_inv.
  destruct (isAuthenticated w) eqn:A; cbn.
  - rewrite M, A, T. repeat split.
    eexists. split; [reflexivity|]. cbn. repeat split. lia.
  - rewrite T, A. split; reflexivity.
Qed.

Lemma inv_step w l w' : polling_inv w -> step w l w' -> polling_inv w'.
Proof.
  intros I S. unfold step in S.
  destruct l as [| | |b|d|h]; cbn [step_fn] in S.
  - destruct (mounted w) eqn:M; [discriminate|]. injection S as <-.
    apply inv_run_effect; [|reflexivity]. cbn.
    unfold polling_inv in I. destruct (cleanup w); [|tauto].
    destruct I as [I _]. congruence.
  - destruct (mounted w) eqn:M; [|discriminate]. injection S as <-.
    destruct (inv_run_cleanup w I) as (T & C & _).
    unfold polling_inv. cbn. rewrite C. split; [exact T|discriminate].
  - destruct (mounted w); [|discriminate]. now injection S as <-.
  - destruct (Bool.eqb b (isAuthenticated w)); [discriminate|].
    destruct (inv_run_cleanup w I) as (T & C & M & _).
    destruct (mounted w) eqn:Mw; injection S as <-.
    + apply inv_run_effect; cbn; assumption.
    + unfold polling_inv in *. cbn.
      destruct (cleanup w); [destruct I as [I _]; congruence|].
      split; [tauto|congruence].
  - injection S as <-. unfold polling_inv in *. cbn.
    destruct (cleanup w); [|exact I].
    destruct I as (M & A & t & T & Cb & P & D).
    repeat split; try assumption. exists t. repeat split; try assumption. lia.
  - destruct (timers w !! h) as [t|] eqn:L; [|discriminate].
    destruct (due t <=? now w); [|discriminate].
    destruct (callback t) eqn:Cb. injection S as <-.
    unfold polling_inv in *. cbn.
    destruct (cleanup w) as [h0|].
    + destruct I as (M & A & t0 & T & Cb0 & P & D).
      rewrite T in L. apply lookup_singleton_Some in L as [-> ->].
      repeat split; try assumption.
      eexists. split; [rewrite T; apply insert_singleton_eq|].
      cbn. repeat split; try assumption. lia.
    + destruct I as [T _]. rewrite T in L. now rewrite lookup_empty in L.
Qed.

Lemma steps_snoc w ls w1 l w2 :
  steps w ls w1 -> step w1 l w2 -> steps w (ls ++ [l]) w2.
Proof.
  induction 1 as [w|w l0 wa ls wb S0 _ IH]; intros S; cbn.
  - econstructor; [exact S|constructor].
  - econstructor; [exact S0|auto].
Qed.

Lemma inv_steps w ls w' : polling_inv w -> steps w ls w' -> polling_inv w'.
Proof. intros I S. induction S; eauto using inv_step. Qed.

Lemma inv_reachable w : reachable w -> polling_inv w.
Proof.
  intros (auth & ls & S). eapply inv_steps; [apply inv_initial|exact S].
Qed.

(** While the viewer is logged out or the feed is unmounted the timer
    table is empty. *)
Lemma inv_idle w :
  polling_inv w -> isAuthenticated w = false \/ mounted w = false ->
  timers w = ∅.
Proof.
  unfold polling_inv. destruct (cleanup w).
  - intros (M & A & _) [H|H]; congruence.
  - tauto.
Qed.

Lemma tick_needs_timer w h w' :
  step w (Tick h) w' -> is_Some (timers w !! h).
Proof.
  unfold step. cbn [step_fn].
  destruct (timers w !! h); [eauto|discriminate].
Qed.

(** A step other than a login keeps a logged-out viewer logged out; with
    an empty timer table it is not a tick and issues no read. *)
Lemma logged_out_step w l w' :
  polling_inv w -> isAuthenticated w = false -> is_login l = false ->
  step w l w' ->
  isAuthenticated w' = false /\ is_tick l = false
  /\ fetched w' = fetched w.
Proof.
  intros I A NL S.
  pose proof (inv_idle w I (or_introl A)) as T.
  destruct (inv_run_cleanup w I) as (_ & _ & _ & Ac & _ & Fc).
  unfold step in S. destruct l as [| | |b|d|h]; cbn [step_fn] in S.
  - destruct (mounted w); [discriminate|]. injection S as <-.
    unfold run_effect. cbn. rewrite A. cbn. auto.
  - destruct (mounted w); [|discriminate]. injection S as <-.
    cbn [isAuthenticated fetched set_mounted]. rewrite Ac, Fc. auto.
  - destruct (mounted w); [|discriminate]. injection S as <-. auto.
  - destruct b; [discriminate|]. rewrite A in S. discriminate.
  - injection S as <-. auto.
  - rewrite T, lookup_empty in S. discriminate.
Qed.

Lemma logged_out_steps w ls w' :
  polling_inv w -> isAuthenticated w = false ->
  existsb is_login ls = false -> steps w ls w' ->
  isAuthenticated w' = false /\ existsb is_tick ls = false
  /\ fetched w' = fetched w.
Proof.
  intros I A NL S. induction S as [w|w l w1 ls w2 S1 S IH]; [auto|].
  cbn in NL. apply orb_false_iff in NL as [NL1 NL].
  destruct (logged_out_step _ _ _ I A NL1 S1) as (A1 & T1 & F1).
  destruct (IH (inv_step _ _ _ I S1) A1 NL) as (A2 & T2 & F2).
  cbn. rewrite T1, T2. repeat split; congruence.
Qed.

Lemma run_labels_steps w ls w' : run_labels w ls = Some w' -> steps w ls w'.
Proof.
  revert w. induction ls as [|l ls IH]; intros w; cbn.
  - intros [= <-]. constructor.
  - destruct (step_fn w l) as [w1|] eqn:S; [|discriminate].
    intros R. econstructor; [exact S|auto].
Qed.

(** A due timer of a reachable world fires: the feed is read and the
    timer is armed again one period later. *)
Lemma tick_enabled w h t :
  timers w !! h = Some t -> due t <= now w ->
  exists w', step w (Tick h) w'
    /\ fetched w' = (now w, OnTimer h) :: fetched w
    /\ timers w' !! h = Some {| callback := callback t; period := period t;
                                due := now w + period t |}.
Proof.
  intros L D. unfold step. cbn [step_fn]. rewrite L.
  apply N.leb_le in D. rewrite D. destruct (callback t) eqn:Cb.
  eexists. split; [reflexivity|]. cbn. split; [reflexivity|].
  apply lookup_insert_eq.
Qed.

(** C5. In every world the component can reach: while the feed is
    mounted and the viewer authenticated there is exactly one interval
    timer, it calls [fetchMessages] with a period of 10000 ms, is due
    within 10 s, and fires when due, reading the feed and arming itself
    10 s later; while the viewer is logged out, or the feed unmounted,
    the timer table is empty and no timer step is enabled; and from a
    logged-out world every execution without a login contains no timer
    step, issues no read of the feed and ends with an empty timer
    table. *)
Theorem C5_polling_stops_on_logout (w : World) :
  reachable w ->
  (mounted w = true -> isAuthenticated w = true ->
     exists h t, timers w = {[h := t]} /\ callback t = FetchMessages
                 /\ period t = 10000 /\ due t <= now w + 10000
                 /\ (due t <= now w ->
                     exists w', step w (Tick h) w'
                       /\ fetched w' = (now w, OnTimer h) :: fetched w
                       /\ timers w' !! h
                          = Some {| callback := FetchMessages;
                                    period := 10000;
                                    due := now w + 10000 |}))
  /\ (isAuthenticated w = false \/ mounted w = false ->
        timers w = ∅ /\ forall h w', ~ step w (Tick h) w')
  /\ (forall ls w',
        isAuthenticated w = false -> steps w ls w' ->
        existsb is_login ls = false ->
        existsb is_tick ls = false /\ fetched w' = fetched w
        /\ timers w' = ∅).
Proof.
  intros R. pose proof (inv_reachable w R) as I. repeat split.
  - intros M A. unfold polling_inv in I. destruct (cleanup w) as [h|].
    + destruct I as (_ & _ & t & T & Cb & P & D).
      exists h, t. repeat split; try assumption.
      intros Due.
      destruct (tick_enabled w h t) as (w' & S & F & L);
        [rewrite T; apply lookup_singleton_eq | exact Due |].
      exists w'. rewrite Cb, P in L. auto.
    + destruct I as [_ I]. specialize (I M). congruence.
  - now apply inv_idle.
  - intros h w' S. apply tick_needs_timer in S as [t L].
    rewrite (inv_idle w I H), lookup_empty in L. discriminate.
  - eapply logged_out_steps; eauto.
  - eapply logged_out_steps; eauto.
  - apply inv_idle; [eapply inv_steps; eauto|].
    left. eapply logged_out_steps; eauto.
Qed.

Lemma C5_polling_stops_on_logout_witness :
  reachable Sample.after_logout
  /\ isAuthenticated Sample.after_logout = false
  /\ timers Sample.after_logout = ∅
  /\ forall h w', ~ step Sample.after_logout (Tick h) w'.
Proof.
  assert (reachable Sample.after_logout) as R.
  { exists true, Sample.session. apply run_labels_steps.
    vm_compute. reflexivity. }
  split; [exact R|].
  split; [reflexivity|].
  apply (C5_polling_stops_on_logout Sample.after_logout R).
  left. reflexivity.
Defined.

End PollingFacts.

(** ** The login form *)

Module LoginFacts.
Import JS Handler Login JSFacts.

(** The three tests of [validateForm]; the emptiness test of each is
    implied by the test that follows it. *)
Lemma username_test (u : js_string) :
  negb (truthy u) || (length (trim u) <? 3) = negb (3 <=? length (trim u)).
Proof.
  rewrite N.ltb_antisym. destruct u; [reflexivity|]. reflexivity.
Qed.

Lemma password_test (p : js_string) :
  negb (truthy p) || (length p <? 6) = negb (6 <=? length p).
Proof.
  rewrite N.ltb_antisym. destruct p; reflexivity.
Qed.

Lemma email_test (e : js_string) :
  negb (truthy e) || negb (includes e 64) = negb (includes e 64).
Proof. destruct e; reflexivity. Qed.

(** [validateForm] in closed form. *)
Lemma valid_eq (r : State) :
  valid r = (3 <=? length (trim (username r)))
            && (6 <=? length (password r))
            && (isLogin r || includes (email r) 64).
Proof.
  unfold valid, validateForm.
  rewrite username_test, password_test, email_test.
  destruct (3 <=? length (trim (username r)));
    destruct (6 <=? length (password r));
    destruct (isLogin r); destruct (includes (email r) 64); reflexivity.
Qed.

Lemma valid_iff (r : State) :
  valid r = true <->
  3 <= length (trim (username r)) /\ 6 <= length (password r)
  /\ (isLogin r = false -> includes (email r) 64 = true).
Proof.
  rewrite valid_eq, !andb_true_iff, !N.leb_le, orb_true_iff.
  destruct (isLogin r); intuition congruence.
Qed.

Lemma validateForm_ok (r : State) :
  valid r = true -> validateForm r = ([], Ok true).
Proof.
  unfold valid, validateForm.
  repeat match goal with
         | |- context [if ?b then _ else _] => destruct b; cbn
         end; intros ?; (discriminate || reflexivity).
Qed.

Lemma validateForm_failed (r : State) :
  valid r = false ->
  exists msg, validateForm r = ([SetError msg], Ok false)
    /\ In msg validation_messages.
Proof.
  unfold valid, validateForm.
  repeat match goal with
         | |- context [if ?b then _ else _] => destruct b; cbn - [lit]
         end;
    try discriminate; intros _; eexists; (split; [reflexivity|]);
    unfold validation_messages; cbn - [lit]; auto.
Qed.

Lemma handleSubmit_valid (r : State) auth :
  valid r = true ->
  auth_calls (effects (handleSubmit r auth)) = [the_call r].
Proof.
  intros V. unfold handleSubmit, the_call.
  rewrite (validateForm_ok r V). cbn.
  destruct (isLogin r); unfold await_call; cbn.
  - destruct (auth _); reflexivity.
  - destruct (auth _); reflexivity.
Qed.

Lemma handleSubmit_invalid (r : State) auth :
  valid r = false ->
  exists msg,
    handleSubmit r auth
    = ([PreventDefault; SetError (lit ""); SetError msg], Ok tt)
    /\ In msg validation_messages.
Proof.
  intros V. destruct (validateForm_failed r V) as (msg & E & I).
  exists msg. split; [|exact I]. unfold handleSubmit. rewrite E. reflexivity.
Qed.

Lemma handleSubmit_login_email (r : State) auth e :
  isLogin r = true ->
  handleSubmit (with_email e r) auth = handleSubmit r auth.
Proof.
  intros L. unfold handleSubmit, validateForm. cbn. rewrite L. reflexivity.
Qed.

Lemma validation_messages_truthy msg :
  In msg validation_messages -> truthy msg = true.
Proof.
  unfold validation_messages. cbn - [lit].
  intros [<-|[<-|[<-|[]]]]; reflexivity.
Qed.

(** C6. [validateForm] passes exactly when the trimmed username has at
    least 3 code units, the password at least 6 and, in registration
    mode, the email contains "@".  An auth call is attempted only if
    validation passes, hence only if the username has at least 3
    characters, the password at least 6 and, in registration mode, the
    email contains "@"; when validation passes the call of the form's
    mode is the one call made.  In login mode the handler does the same
    whatever the email field holds.  When a check fails no auth call is
    made and the error string ends up being one of the three inline
    messages. *)
Theorem C6_validation_gates_auth_call
    (r : State) (auth : AuthCall -> AuthOutcome) :
  (valid r = true <->
     3 <= length (trim (username r)) /\ 6 <= length (password r)
     /\ (isLogin r = false -> includes (email r) 64 = true))
  /\ (auth_calls (effects (handleSubmit r auth)) <> [] ->
        valid r = true
        /\ 3 <= length (username r) /\ 6 <= length (password r)
        /\ (isLogin r = false -> includes (email r) 64 = true))
  /\ (valid r = true ->
        auth_calls (effects (handleSubmit r auth)) = [the_call r])
  /\ (isLogin r = true ->
        forall e, handleSubmit (with_email e r) auth = handleSubmit r auth)
  /\ (valid r = false ->
        auth_calls (effects (handleSubmit r auth)) = []
        /\ In (error (submit auth r)) validation_messages
        /\ truthy (error (submit auth r)) = true).
Proof.
  assert (valid r = false ->
          auth_calls (effects (handleSubmit r auth)) = []
          /\ In (error (submit auth r)) validation_messages) as Failing.
  { intros V. unfold submit.
    destruct (handleSubmit_invalid r auth V) as (msg & -> & I).
    split; [reflexivity|exact I]. }
  split; [apply valid_iff|].
  split.
  { intros Calls. destruct (valid r) eqn:V.
    - split; [reflexivity|].
      apply valid_iff in V as (U & P & E).
      pose proof (trim_length (username r)).
      repeat split; [lia | exact P | exact E].
    - destruct (Failing eq_refl) as [C _]. contradiction. }
  split; [apply handleSubmit_valid|].
  split; [intros L e; now apply handleSubmit_login_email|].
  intros V. destruct (Failing V) as [C I].
  repeat split; [exact C | exact I |].
  now apply validation_messages_truthy.
Qed.

Lemma C6_validation_gates_auth_call_witness :
  auth_calls (effects (handleSubmit Sample.registration Sample.auth_ok))
  = [register (lit "alice") (lit "alice@example.org") (lit "secret")]
  /\ includes (email Sample.registration) 64 = true.
Proof.
  destruct (C6_validation_gates_auth_call Sample.registration Sample.auth_ok)
    as (_ & H2 & H3 & _).
  split; [apply H3; reflexivity|].
  apply H2; [vm_compute; discriminate | reflexivity].
Defined.

End LoginFacts.

(** ** The dashboard shell *)

Module HomeFacts.
Import JS Home.

Lemma deps_eqb_eq d1 d2 : deps_eqb d1 d2 = true <-> d1 = d2.
Proof.
  destruct d1 as [a1 r1], d2 as [a2 r2]. unfold deps_eqb. cbn.
  rewrite andb_true_iff, Bool.eqb_true_iff, Nat.eqb_eq.
  split; [intros [-> ->]; reflexivity | intros [= -> ->]; auto].
Qed.

(** The view of a logged-out viewer once loading has finished. *)
Lemma view_logged_out c tab :
  isAuthenticated c = false -> isLoading c = false -> view c tab = Null.
Proof. intros A L. unfold view. now rewrite L, A. Qed.

Lemma redirect_logged_out c :
  isAuthenticated c = false ->
  redirect c = [RouterPush (router c) (lit "/login")].
Proof. intros A. unfold redirect. now rewrite A. Qed.

Lemma passes_length prev rs :
  List.length (passes prev rs) = List.length rs.
Proof.
  revert prev.
  induction rs as [|[c t] rs IH]; intros prev; cbn; [|rewrite IH];
    reflexivity.
Qed.

(** Up to a render in which the viewer is logged out, either a pass
    ran the effect with the dependencies unchanged since, or the
    dependencies have been the same since before the first pass. *)
Lemma passes_redirect prev before c tab :
  isAuthenticated c = false ->
  (exists k v,
      passes prev (before ++ [(c, tab)]) !! k
      = Some (v, [RouterPush (router c) (lit "/login")])
      /\ forall j c' t', (k <= j)%nat ->
            (before ++ [(c, tab)]) !! j = Some (c', t') -> deps c' = deps c)
  \/ (prev = Some (deps c)
      /\ forall j c' t',
            (before ++ [(c, tab)]) !! j = Some (c', t') -> deps c' = deps c).
Proof.
  intros A. revert prev. induction before as [|[c0 t0] b IH]; intros prev.
  - cbn [app passes]. unfold render.
    destruct (effect_runs prev c) eqn:E.
    + left. exists 0%nat, (view c tab). rewrite (redirect_logged_out c A).
      split; [reflexivity|].
      intros [|j] c' t' _ L; cbn in L; [congruence|discriminate].
    + right. destruct prev as [d|]; [|discriminate]. cbn in E.
      apply negb_false_iff, deps_eqb_eq in E. split; [congruence|].
      intros [|j] c' t' L; cbn in L; [congruence|discriminate].
  - cbn [app passes].
    destruct (IH (Some (deps c0))) as [(k & v & L & Hs)|[P Hs]].
    + left. exists (S k), v. split; [exact L|].
      intros [|j] c' t' Le Lj; [lia|]. apply (Hs j c' t'); [lia|exact Lj].
    + apply (inj Some) in P.
      assert (isAuthenticated c0 = false /\ router c0 = router c) as [A0 R0].
      { unfold deps in P. split; congruence. }
      unfold render. destruct (effect_runs prev c0) eqn:E.
      * left. exists 0%nat, (view c0 t0).
        rewrite (redirect_logged_out c0 A0).
        rewrite R0. split; [reflexivity|].
        intros [|j] c' t' _ Lj; cbn in Lj; [congruence|]. eapply Hs; eauto.
      * right. destruct prev as [d|]; [|discriminate]. cbn in E.
        apply negb_false_iff, deps_eqb_eq in E. split; [congruence|].
        intros [|j] c' t' Lj; cbn in Lj; [congruence|]. eapply Hs; eauto.
Qed.

(** C7. Take any life of a mounted dashboard that ends with a render in
    which the viewer is not authenticated and loading has finished.
    That render returns [null].  The effect pushing "/login" has run for
    this logged-out stretch: some pass [k], at or since which the viewer
    has been logged out throughout with the same router, ran it.  When
    the render is the mount, or the first in which the flag or the
    router changed, it is that very render. *)
Theorem C7_logged_out_dashboard_redirects
    (before : list (Context * Tab)) (c : Context) (tab : Tab) :
  isAuthenticated c = false -> isLoading c = false ->
  (forall prev, fst (render prev c tab) = Null)
  /\ render None c tab = (Null, [RouterPush (router c) (lit "/login")])
  /\ (forall prev, effect_runs prev c = true ->
        render prev c tab = (Null, [RouterPush (router c) (lit "/login")]))
  /\ exists k v,
      (k <= List.length before)%nat
      /\ lifetime (before ++ [(c, tab)]) !! k
         = Some (v, [RouterPush (router c) (lit "/login")])
      /\ forall j c' t', (k <= j)%nat ->
            (before ++ [(c, tab)]) !! j = Some (c', t') ->
            isAuthenticated c' = false /\ router c' = router c.
Proof.
  intros A L. pose proof (view_logged_out c tab A L) as V.
  split; [intros prev; exact V|].
  split.
  { unfold render. cbn [effect_runs].
    now rewrite V, (redirect_logged_out c A). }
  split.
  { intros prev E. unfold render.
    now rewrite E, V, (redirect_logged_out c A). }
  destruct (passes_redirect None before c tab A)
    as [(k & v & Lk & Hs)|[P _]]; [|discriminate].
  exists k, v. split; [|split; [exact Lk|]].
  - apply lookup_lt_Some in Lk.
    rewrite passes_length, length_app in Lk. cbn in Lk. lia.
  - intros j c' t' Le Lj. specialize (Hs j c' t' Le Lj).
    unfold deps in Hs. split; congruence.
Qed.

Lemma C7_logged_out_dashboard_redirects_witness :
  render None Sample.logged_out market
  = (Null, [RouterPush 0 (lit "/login")])
  /\ exists k v,
      (k <= 1)%nat
      /\ lifetime [(Sample.loading, market); (Sample.logged_out, market)] !! k
         = Some (v, [RouterPush 0 (lit "/login")]).
Proof.
  destruct (C7_logged_out_dashboard_redirects [(Sample.loading, market)]
              Sample.logged_out market eq_refl eq_refl)
    as (_ & H2 & _ & k & v & Hk & Hl & _).
  split; [exact H2|].
  exists k, v. split; [exact Hk|exact Hl].
Defined.

End HomeFacts.

(** ** The discussion feed: how its operations compose *)

Module DiscussionMore.
Import JS Handler Discussion JSFacts DiscussionFacts.

(** The run of [fetchMessages], whatever the reply. *)
Lemma fetchMessages_cases user net :
  (exists ms, get_succeeds net (get_request user) ms)
  \/ get_fails net (get_request user).
Proof.
  unfold get_succeeds, get_fails.
  destruct (net _) as [|[] [ms|]]; eauto.
Qed.

(** X1. Reading the feed twice from a server that answers the same way
    leaves the state the first read left: a successful read replaces the
    list by the same array again, a failed one sets the same error. *)
Theorem refresh_idempotent
    (user : option User) (net : Request -> FetchOutcome (list Message))
    (st : State) :
  refresh user net (refresh user net st) = refresh user net st.
Proof.
  unfold refresh.
  destruct (fetchMessages_cases user net) as [[ms S]|F].
  - rewrite (fetchMessages_ok _ _ _ S). reflexivity.
  - rewrite (fetchMessages_failed _ _ F). reflexivity.
Qed.

(** X2. Submitting again right after a successful send is a no-op: the
    send emptied the input, so the second submission issues no request
    and changes nothing; one message cannot be posted twice by a double
    submission once the first answer is in. *)
Theorem resubmit_after_success_does_nothing
    (user : option User) (net net' : Request -> FetchOutcome Message)
    (st : State) (m : Message) :
  blank (newMessage st) = false ->
  post_succeeds net (post_request user (newMessage st)) m ->
  network_calls (effects (handleSubmit user (submit user net st) net')) = []
  /\ submit user net' (submit user net st) = submit user net st.
Proof.
  intros B S.
  assert (blank (newMessage (submit user net st)) = true) as B'.
  { unfold submit. rewrite (handleSubmit_ok _ _ _ _ B S). reflexivity. }
  remember (submit user net st) as s1 eqn:E1. clear E1.
  unfold submit. rewrite (handleSubmit_blank _ _ _ B').
  split; reflexivity.
Qed.

Lemma resubmit_after_success_does_nothing_witness :
  submit (Some Sample.alice) Sample.post_500
    (submit (Some Sample.alice) Sample.post_ok Sample.feed)
  = submit (Some Sample.alice) Sample.post_ok Sample.feed.
Proof.
  apply (resubmit_after_success_does_nothing (Some Sample.alice)
           Sample.post_ok Sample.post_500 Sample.feed Sample.reply
           eq_refl eq_refl).
Defined.

(** X3. After a failed send the text is still in the input, so
    submitting again issues the same POST.  When that one succeeds the
    message is prepended and the input emptied, but the error string of
    the failed attempt is still "Failed to send message". *)
Theorem retry_after_failure
    (user : option User) (net net' : Request -> FetchOutcome Message)
    (st : State) (m : Message) :
  blank (newMessage st) = false ->
  post_fails net (post_request user (newMessage st)) ->
  post_succeeds net' (post_request user (newMessage st)) m ->
  network_calls (effects (handleSubmit user (submit user net st) net'))
  = network_calls (effects (handleSubmit user st net))
  /\ messages (submit user net' (submit user net st)) = m :: messages st
  /\ newMessage (submit user net' (submit user net st)) = lit ""
  /\ error (submit user net' (submit user net st))
     = lit "Failed to send message".
Proof.
  intros B F S.
  assert (submit user net st
          = {| messages := messages st; newMessage := newMessage st;
               error := lit "Failed to send message" |}) as E.
  { unfold submit. rewrite (handleSubmit_failed _ _ _ B F). reflexivity. }
  rewrite E. clear E.
  set (r1 := {| messages := messages st; newMessage := newMessage st;
                error := lit "Failed to send message" |}).
  unfold submit.
  rewrite (handleSubmit_calls user st net B).
  rewrite (handleSubmit_calls user r1 net' B).
  rewrite (handleSubmit_ok user r1 net' m B S).
  repeat split.
Qed.

Lemma retry_after_failure_witness :
  messages (submit (Some Sample.alice) Sample.post_ok
              (submit (Some Sample.alice) Scenario.post_down Sample.feed))
  = [Sample.reply; Sample.hello]
  /\ error (submit (Some Sample.alice) Sample.post_ok
              (submit (Some Sample.alice) Scenario.post_down Sample.feed))
     = lit "Failed to send message".
Proof.
  destruct (retry_after_failure (Some Sample.alice) Scenario.post_down
              Sample.post_ok Sample.feed Sample.reply eq_refl I eq_refl)
    as (_ & H2 & _ & H4).
  split; assumption.
Defined.

(** X4. A run of either handler issues at most one request, whatever
    the reply (nothing is retried): [fetchMessages] exactly one GET
    without a body, [handleSubmit] none or one POST.  Every request goes
    to the discussions endpoint and carries the header
    [Authorization: Bearer <token>]; without a user object the request
    is still issued, the header reading "Bearer undefined". *)
Theorem requests_single_and_authorized
    (user : option User) (st : State)
    (net : Request -> FetchOutcome Message)
    (gnet : Request -> FetchOutcome (list Message)) :
  (List.length (network_calls (effects (handleSubmit user st net))) <= 1)%nat
  /\ network_calls (effects (fetchMessages user gnet)) = [get_request user]
  /\ body (get_request user) = None
  /\ (forall req,
        In req (network_calls (effects (handleSubmit user st net))
                ++ network_calls (effects (fetchMessages user gnet))) ->
        url req = endpoint
        /\ In (lit "Authorization", bearer user) (headers req))
  /\ bearer None = lit "Bearer undefined".
Proof.
  assert (network_calls (effects (fetchMessages user gnet))
          = [get_request user]) as G.
  { destruct (fetchMessages_cases user gnet) as [[ms S]|F].
    - now rewrite (fetchMessages_ok _ _ _ S).
    - now rewrite (fetchMessages_failed _ _ F). }
  assert (network_calls (effects (handleSubmit user st net)) = []
          \/ network_calls (effects (handleSubmit user st net))
             = [post_request user (newMessage st)]) as P.
  { destruct (blank (newMessage st)) eqn:B.
    - left. now rewrite (handleSubmit_blank _ _ _ B).
    - right. now apply handleSubmit_calls. }
  split; [destruct P as [-> | ->]; cbn; lia|].
  split; [exact G|]. split; [reflexivity|]. split; [|reflexivity].
  intros req. rewrite G.
  destruct P as [-> | ->]; cbn [app In]; intros H.
  - destruct H as [<-|[]]. split; [reflexivity|]. cbn [headers get_request In].
    auto.
  - destruct H as [<-|[<-|[]]]; (split; [reflexivity|]);
      cbn [headers get_request post_request In]; auto.
Qed.

(** X5. A send and a refresh that overlap are not coordinated.  When
    the refresh lands while the POST is in flight, the send overwrites
    it: the list becomes the new message followed by the list the form
    was submitted with, whatever the refresh had fetched.  When the
    refresh lands after the send, the list is the fetched array: the
    message just sent is shown only if that array has it. *)
Theorem send_and_refresh_last_writer_wins
    (user : option User) (net : Request -> FetchOutcome Message)
    (gnet : Request -> FetchOutcome (list Message))
    (st : State) (m : Message) (ms : list Message) :
  blank (newMessage st) = false ->
  post_succeeds net (post_request user (newMessage st)) m ->
  get_succeeds gnet (get_request user) ms ->
  messages (commit (effects (handleSubmit user st net))
              (refresh user gnet st)) = m :: messages st
  /\ messages (refresh user gnet (submit user net st)) = ms
  /\ (In m (messages (refresh user gnet (submit user net st)))
      <-> In m ms).
Proof.
  intros B S G. unfold refresh, submit.
  rewrite (handleSubmit_ok _ _ _ _ B S), (fetchMessages_ok _ _ _ G).
  cbn. repeat split; auto.
Qed.

Lemma send_and_refresh_last_writer_wins_witness :
  messages (commit (effects (handleSubmit (Some Sample.alice) Sample.feed
                               Sample.post_ok))
              (refresh (Some Sample.alice) Scenario.get_old Sample.feed))
  = [Sample.reply; Sample.hello]
  /\ ~ In Sample.reply
       (messages (refresh (Some Sample.alice) Scenario.get_old
                    (submit (Some Sample.alice) Sample.post_ok Sample.feed))).
Proof.
  destruct (send_and_refresh_last_writer_wins (Some Sample.alice)
              Sample.post_ok Scenario.get_old Sample.feed Sample.reply
              [Sample.hello] eq_refl eq_refl eq_refl) as (H1 & _ & H3).
  split; [exact H1|].
  intros H. apply H3 in H. destruct H as [H|[]]. discriminate H.
Defined.

End DiscussionMore.

(** ** What the feed shows *)

Module DiscussionViewFacts.
Import JS Handler Discussion DiscussionView JSFacts DiscussionFacts.

Lemma is_own_iff (user : option User) (m : Message) :
  is_own user m = true <->
  exists u, user = Some u /\ username m = user_username u.
Proof.
  unfold is_own. destruct user as [u|].
  - rewrite bool_decide_eq_true. split.
    + intros H. exists u. auto.
    + intros (u' & [= <-] & H). exact H.
  - split; [discriminate|]. intros (u & H & _). discriminate.
Qed.

(** X6. After a successful send an authenticated viewer sees an empty
    input, the error line as it was, and the bubbles as they were with
    one bubble for the server's message on top.  That bubble has the
    viewer's own style exactly when the server's message bears the
    viewer's username, and never when there is no user object.  A
    viewer who is not authenticated sees the login prompt and nothing of
    the state. *)
Theorem view_after_successful_send
    (user : option User) (net : Request -> FetchOutcome Message)
    (st : State) (m : Message) :
  blank (newMessage st) = false ->
  post_succeeds net (post_request user (newMessage st)) m ->
  (exists line bubbles,
      render true user st = Feed (newMessage st) line bubbles
      /\ render true user (submit user net st)
         = Feed (lit "") line (bubble user m :: bubbles)
      /\ List.length bubbles = List.length (messages st))
  /\ text (bubble user m) = content m
  /\ (own (bubble user m) = true <->
      exists u, user = Some u /\ username m = user_username u)
  /\ render false user (submit user net st) = LoginPrompt.
Proof.
  intros B S. unfold submit. rewrite (handleSubmit_ok _ _ _ _ B S).
  split.
  { eexists _, _. split; [reflexivity|]. split; [reflexivity|].
    apply length_map. }
  split; [reflexivity|]. split; [apply is_own_iff|reflexivity].
Qed.

Lemma view_after_successful_send_witness :
  exists line bubbles,
    render true (Some Sample.alice)
      (submit (Some Sample.alice) Sample.post_ok Sample.feed)
    = Feed (lit "") line
        (bubble (Some Sample.alice) Sample.reply :: bubbles)
    /\ List.length bubbles = 1%nat.
Proof.
  destruct (view_after_successful_send (Some Sample.alice) Sample.post_ok
              Sample.feed Sample.reply eq_refl eq_refl)
    as ((line & bubbles & _ & H2 & H3) & _).
  exists line, bubbles. split; assumption.
Defined.

End DiscussionViewFacts.

(** ** Polling: one timer, no faster than its period *)

Module PollingMore.
Import Polling Pace PollingFacts.

(** X7. The component never holds more than one interval timer, however
    often the viewer logs in and out and the feed is mounted and
    unmounted: in every reachable world the timer table is empty or has
    the single timer that the pending cleanup will clear. *)
Theorem at_most_one_timer (w : World) :
  reachable w ->
  (size (timers w) <= 1)%nat
  /\ (forall h, is_Some (timers w !! h) -> cleanup w = Some h)
  /\ timers (run_cleanup w) = ∅.
Proof.
  intros R. pose proof (inv_reachable w R) as I.
  split; [|split; [|apply (inv_run_cleanup w I)]].
  - unfold polling_inv in I. destruct (cleanup w) as [h|].
    + destruct I as (_ & _ & t & -> & _). now rewrite map_size_singleton.
    + destruct I as [-> _]. rewrite map_size_empty. lia.
  - intros h [t L]. unfold polling_inv in I.
    destruct (cleanup w) as [h0|].
    + destruct I as (_ & _ & t0 & T & _). rewrite T in L.
      apply lookup_singleton_Some in L as [-> _]. reflexivity.
    + destruct I as [T _]. rewrite T, lookup_empty in L. discriminate.
Qed.

Lemma at_most_one_timer_witness :
  (size (timers Scenario.polling) <= 1)%nat
  /\ timers (run_cleanup Scenario.polling) = ∅.
Proof.
  assert (reachable Scenario.polling) as R.
  { exists true, Scenario.polling_session. apply run_labels_steps.
    vm_compute. reflexivity. }
  destruct (at_most_one_timer Scenario.polling R) as (H1 & _ & H3).
  split; assumption.
Defined.

Lemma paced_initial auth : paced (initial auth).
Proof. split; cbn; [intros ? ? []|intros ? ? ? ? _ []]. Qed.

(** The body of the effect keeps the pace when no timer is left. *)
Lemma paced_run_effect w :
  timers w = ∅ -> paced w -> paced (run_effect w).
Proof.
  intros T [P1 P2]. unfold run_effect, paced.
  destruct (isAuthenticated w); unfold set_cleanup; cbn.
  - split.
    + intros time c [[= <- <-]|H]; [lia|eauto].
    + intros h t time c. rewrite T.
      intros L. apply lookup_insert_Some in L as [[_ <-]|[_ L]];
        [|now rewrite lookup_empty in L].
      cbn. intros [[= <- <-]|H]; [lia|].
      specialize (P1 _ _ H). lia.
  - split; cbn; assumption.
Qed.

Lemma paced_step w l w' :
  polling_inv w -> paced w -> step w l w' -> paced w'.
Proof.
  intros I P S.
  destruct (inv_run_cleanup w I) as (Tc & _ & _ & _ & Nc & Fc).
  assert (paced (run_cleanup w)) as Pc.
  { destruct P as [P1 P2]. split.
    - rewrite Fc, Nc. exact P1.
    - intros h t time c L. rewrite Tc, lookup_empty in L. discriminate. }
  unfold step in S. destruct l as [| | |b|d|h]; cbn [step_fn] in S.
  - destruct (mounted w) eqn:M; [discriminate|]. injection S as <-.
    apply paced_run_effect; [|exact P]. cbn.
    apply inv_idle; auto.
  - destruct (mounted w); [|discriminate]. injection S as <-. exact Pc.
  - destruct (mounted w); [|discriminate]. now injection S as <-.
  - destruct (Bool.eqb b (isAuthenticated w)); [discriminate|].
    destruct (mounted w); injection S as <-.
    + apply paced_run_effect; [exact Tc|exact Pc].
    + exact P.
  - injection S as <-. destruct P as [P1 P2]. split; cbn.
    + intros time c H. specialize (P1 _ _ H). lia.
    + exact P2.
  - destruct (timers w !! h) as [t|] eqn:L; [|discriminate].
    destruct (due t <=? now w) eqn:D; [|discriminate].
    destruct (callback t). injection S as <-.
    destruct P as [P1 P2]. apply N.leb_le in D.
    assert (period t = 10000) as Pt.
    { unfold polling_inv in I. destruct (cleanup w) as [h0|].
      - destruct I as (_ & _ & t0 & T & _ & Pt & _). rewrite T in L.
        apply lookup_singleton_Some in L as [_ <-]. exact Pt.
      - destruct I as [T _]. rewrite T, lookup_empty in L. discriminate. }
    assert (forall h' t', timers w !! h' = Some t' -> h' = h) as One.
    { intros h' t' L'. unfold polling_inv in I.
      destruct (cleanup w) as [h0|].
      - destruct I as (_ & _ & t0 & T & _). rewrite T in L, L'.
        apply lookup_singleton_Some in L as [<- _].
        apply lookup_singleton_Some in L' as [<- _]. reflexivity.
      - destruct I as [T _]. rewrite T, lookup_empty in L. discriminate. }
    split; cbn.
    + intros time c [[= <- <-]|H]; [lia|eauto].
    + intros h' t' time c L'.
      apply lookup_insert_Some in L' as [[_ <-]|[Ne L']];
        [|apply One in L'; congruence].
      cbn. rewrite Pt. intros [[= <- <-]|H]; [lia|].
      specialize (P1 _ _ H). lia.
Qed.

Lemma paced_steps w ls w' :
  polling_inv w -> paced w -> steps w ls w' -> paced w'.
Proof.
  intros I P S. induction S as [w|w l w1 ls w2 S1 S IH]; [exact P|].
  apply IH; [eapply inv_step|eapply paced_step]; eauto.
Qed.

Lemma paced_reachable w : reachable w -> paced w.
Proof.
  intros (auth & ls & S).
  eapply paced_steps; [apply inv_initial|apply paced_initial|exact S].
Qed.

(** X8. The timer never reads the feed within 10 s of an earlier read:
    when a timer step is taken in a reachable world, every read made so
    far, by the effect or by a timer, is at least 10000 ms old. *)
Theorem timer_reads_are_ten_seconds_apart (w w' : World) (h : nat) :
  reachable w -> step w (Tick h) w' ->
  forall time c, In (time, c) (fetched w) -> time + 10000 <= now w.
Proof.
  intros R S time c H.
  destruct (paced_reachable w R) as [_ P2].
  unfold step in S. cbn [step_fn] in S.
  destruct (timers w !! h) as [t|] eqn:L; [|discriminate].
  destruct (due t <=? now w) eqn:D; [|discriminate].
  apply N.leb_le in D. specialize (P2 _ _ _ _ L H). lia.
Qed.

Lemma timer_reads_are_ten_seconds_apart_witness :
  step Scenario.polling (Tick 0) Scenario.ticked
  /\ forall time c, In (time, c) (fetched Scenario.polling) ->
                    time + 10000 <= now Scenario.polling.
Proof.
  assert (reachable Scenario.polling) as R.
  { exists true, Scenario.polling_session. apply run_labels_steps.
    vm_compute. reflexivity. }
  assert (step Scenario.polling (Tick 0) Scenario.ticked) as S.
  { vm_compute. reflexivity. }
  split; [exact S|].
  exact (timer_reads_are_ten_seconds_apart Scenario.polling Scenario.ticked
           0 R S).
Defined.

(** X9. The feed is read only while it is mounted and the viewer
    authenticated: a step that adds a read adds exactly one, stamped
    with the current time, and ends in such a world.  Mounting the feed
    of an authenticated viewer reads it at once. *)
Theorem reads_only_while_authenticated (w w' : World) (l : Label) :
  reachable w -> step w l w' ->
  (fetched w' = fetched w
   \/ (exists c, fetched w' = (now w, c) :: fetched w)
      /\ mounted w' = true /\ isAuthenticated w' = true)
  /\ (l = Mount -> isAuthenticated w = true ->
      fetched w' = (now w, OnEffect) :: fetched w).
Proof.
  intros R S. pose proof (inv_reachable w R) as I.
  destruct (inv_run_cleanup w I) as (_ & _ & Mc & Ac & Nc & Fc).
  unfold step in S. destruct l as [| | |b|d|h]; cbn [step_fn] in S.
  - destruct (mounted w); [discriminate|]. injection S as <-.
    unfold run_effect. cbn. destruct (isAuthenticated w) eqn:A; cbn.
    + split; [right; unfold set_cleanup; cbn; eauto|auto].
    + split; [auto|discriminate].
  - destruct (mounted w); [|discriminate]. injection S as <-.
    cbn. split; [auto|discriminate].
  - destruct (mounted w); [|discriminate]. injection S as <-.
    split; [auto|discriminate].
  - destruct (Bool.eqb b (isAuthenticated w)); [discriminate|].
    destruct (mounted w) eqn:M; injection S as <-.
    + unfold run_effect. cbn [isAuthenticated set_authenticated].
      destruct b; cbn; rewrite ?Fc, ?Nc, ?Mc;
        (split; [|discriminate]); [right; eauto|auto].
    + split; [auto|discriminate].
  - injection S as <-. split; [auto|discriminate].
  - destruct (timers w !! h) as [t|] eqn:L; [|discriminate].
    destruct (due t <=? now w); [|discriminate].
    destruct (callback t). injection S as <-. cbn.
    split; [|discriminate]. right.
    assert (mounted w = true /\ isAuthenticated w = true) as [M A].
    { destruct (mounted w) eqn:M, (isAuthenticated w) eqn:A; auto;
        rewrite (inv_idle w I) in L by auto;
        now rewrite lookup_empty in L. }
    eauto.
Qed.

Lemma reads_only_while_authenticated_witness :
  step Scenario.polling (Tick 0) Scenario.ticked
  /\ mounted Scenario.ticked = true
  /\ isAuthenticated Scenario.ticked = true.
Proof.
  assert (reachable Scenario.polling) as R.
  { exists true, Scenario.polling_session. apply run_labels_steps.
    vm_compute. reflexivity. }
  assert (step Scenario.polling (Tick 0) Scenario.ticked) as S.
  { vm_compute. reflexivity. }
  split; [exact S|].
  destruct (reads_only_while_authenticated Scenario.polling Scenario.ticked
              (Tick 0) R S) as [[H|[_ H]] _].
  - vm_compute in H. discriminate H.
  - exact H.
Defined.

End PollingMore.

(** ** The login form: after validation *)

Module LoginMore.
Import JS Handler Login LoginForm JSFacts LoginFacts.

(** X10. The checks of [validateForm] are made in a fixed order and the
    first one that fails decides the message: a short username is
    reported whatever the password and the email are, a short password
    only when the username passes, the email only when both pass. *)
Theorem first_failing_check_decides_message
    (r : State) (auth : AuthCall -> AuthOutcome) :
  (length (trim (username r)) < 3 ->
     error (submit auth r)
     = lit "Username must be at least 3 characters long")
  /\ (3 <= length (trim (username r)) -> length (password r) < 6 ->
        error (submit auth r)
        = lit "Password must be at least 6 characters long")
  /\ (3 <= length (trim (username r)) -> 6 <= length (password r) ->
        isLogin r = false -> includes (email r) 64 = false ->
        error (submit auth r) = lit "Please enter a valid email address").
Proof.
  unfold submit, handleSubmit, validateForm.
  rewrite username_test, password_test, email_test.
  repeat split.
  - intros U. apply N.leb_gt in U. rewrite U. reflexivity.
  - intros U P. apply N.leb_le in U. apply N.leb_gt in P.
    rewrite U, P. reflexivity.
  - intros U P L E. apply N.leb_le in U. apply N.leb_le in P.
    rewrite U, P, L, E. reflexivity.
Qed.

Lemma first_failing_check_decides_message_witness :
  error (submit Sample.auth_ok Scenario.all_wrong)
  = lit "Username must be at least 3 characters long"
  /\ error (submit Sample.auth_ok Scenario.bad_email)
     = lit "Please enter a valid email address".
Proof.
  split.
  - apply (first_failing_check_decides_message Scenario.all_wrong
             Sample.auth_ok). reflexivity.
  - apply (first_failing_check_decides_message Scenario.bad_email
             Sample.auth_ok); (reflexivity || discriminate).
Defined.

(** The run of [handleSubmit] on a valid form, by the outcome of the
    auth call. *)
Lemma handleSubmit_resolved (r : State) auth :
  valid r = true -> auth (the_call r) = Resolved ->
  handleSubmit r auth
  = ([PreventDefault; SetError (lit ""); Call (the_call r);
      RouterPush (lit "/")], Ok tt).
Proof.
  intros V A. unfold handleSubmit.
  rewrite (validateForm_ok r V). unfold the_call in *. cbn.
  destruct (isLogin r); unfold await_call; rewrite A; reflexivity.
Qed.

Lemma handleSubmit_rejected (r : State) auth err :
  valid r = true -> auth (the_call r) = Rejected err ->
  handleSubmit r auth
  = ([PreventDefault; SetError (lit ""); Call (the_call r);
      SetError (if truthy (message err) then message err
                else fallback_message r)], Ok tt).
Proof.
  intros V A. unfold handleSubmit, fallback_message.
  rewrite (validateForm_ok r V). unfold the_call in *. cbn.
  destruct (isLogin r); unfold await_call; rewrite A; reflexivity.
Qed.

Lemma shown_message_truthy (r : State) err :
  truthy (if truthy (message err) then message err else fallback_message r)
  = true.
Proof.
  destruct (truthy (message err)) eqn:T; [exact T|].
  unfold fallback_message. destruct (isLogin r); reflexivity.
Qed.

(** X11. When the form is valid and the auth call resolves, the handler
    makes that one call and then navigates to "/", once; the error
    string ends up empty, whatever it was before. *)
Theorem accepted_submission_navigates_home
    (r : State) (auth : AuthCall -> AuthOutcome) :
  valid r = true -> auth (the_call r) = Resolved ->
  effects (handleSubmit r auth)
  = [PreventDefault; SetError (lit ""); Call (the_call r);
     RouterPush (lit "/")]
  /\ navigations (effects (handleSubmit r auth)) = [lit "/"]
  /\ error (submit auth r) = lit "".
Proof.
  intros V A. unfold submit. rewrite (handleSubmit_resolved r auth V A).
  repeat split.
Qed.

Lemma accepted_submission_navigates_home_witness :
  navigations (effects (handleSubmit Sample.registration Sample.auth_ok))
  = [lit "/"]
  /\ error (submit Sample.auth_ok Sample.registration) = lit "".
Proof.
  destruct (accepted_submission_navigates_home Sample.registration
              Sample.auth_ok eq_refl eq_refl) as (_ & H2 & H3).
  split; assumption.
Defined.

(** X12. When the form is valid and the auth call is rejected, nothing
    is pushed to the router and the error string becomes the message of
    the rejection, or, when that message is empty, "Invalid username or
    password" in login mode and "Registration failed" in registration
    mode; in both cases it is not empty. *)
Theorem rejected_submission_shows_message
    (r : State) (auth : AuthCall -> AuthOutcome) (err : Thrown) :
  valid r = true -> auth (the_call r) = Rejected err ->
  navigations (effects (handleSubmit r auth)) = []
  /\ auth_calls (effects (handleSubmit r auth)) = [the_call r]
  /\ error (submit auth r)
     = (if truthy (message err) then message err else fallback_message r)
  /\ truthy (error (submit auth r)) = true.
Proof.
  intros V A. unfold submit. rewrite (handleSubmit_rejected r auth err V A).
  repeat split. apply shown_message_truthy.
Qed.

Lemma rejected_submission_shows_message_witness :
  error (submit Scenario.auth_taken Sample.registration)
  = lit "Username already exists"
  /\ error (submit Scenario.auth_silent Sample.registration)
     = lit "Registration failed".
Proof.
  split.
  - apply (rejected_submission_shows_message Sample.registration
             Scenario.auth_taken (Error (lit "Username already exists"))
             eq_refl eq_refl).
  - apply (rejected_submission_shows_message Sample.registration
             Scenario.auth_silent (Error (lit "")) eq_refl eq_refl).
Defined.

Lemma effects_emit_bind {A} (e : Effect) (k : unit -> M Effect A) :
  effects (bind (emit e) k) = e :: effects (k tt).
Proof. unfold bind, emit, effects. destruct (k tt). reflexivity. Qed.

(** Every run of [handleSubmit] starts by resetting the error string. *)
Lemma handleSubmit_prefix r auth :
  exists tail,
    effects (handleSubmit r auth)
    = PreventDefault :: SetError (lit "") :: tail.
Proof.
  unfold handleSubmit. rewrite !effects_emit_bind. eauto.
Qed.

(** No effect of the form writes the mode or a field. *)
Lemma commit_fields es st :
  isLogin (commit es st) = isLogin st
  /\ username (commit es st) = username st
  /\ email (commit es st) = email st
  /\ password (commit es st) = password st.
Proof.
  unfold commit. revert st.
  induction es as [|e es IH]; intros st; cbn [fold_left]; [auto|].
  destruct (IH (apply_effect st e)) as (H1 & H2 & H3 & H4).
  rewrite H1, H2, H3, H4. destruct e; auto.
Qed.

(** The error string after a run depends on the state only through the
    error string. *)
Lemma commit_error es st st' :
  error st = error st' -> error (commit es st) = error (commit es st').
Proof.
  unfold commit. revert st st'.
  induction es as [|e es IH]; intros st st' E; cbn [fold_left]; [exact E|].
  apply IH. destruct e; cbn; auto.
Qed.

(** X13. A submission never changes the mode or what is typed in the
    three fields, whatever its outcome (after a failure the password is
    still in its field).  The error string it leaves does not depend on
    the one it found, so an earlier error never survives; it is empty
    exactly when the form was valid and the auth call resolved. *)
Theorem submission_keeps_fields_and_drops_old_error
    (r : State) (auth : AuthCall -> AuthOutcome) (e0 : js_string) :
  isLogin (submit auth r) = isLogin r
  /\ username (submit auth r) = username r
  /\ email (submit auth r) = email r
  /\ password (submit auth r) = password r
  /\ error (submit auth (with_error e0 r)) = error (submit auth r)
  /\ (error (submit auth r) = lit "" <->
      valid r = true /\ auth (the_call r) = Resolved).
Proof.
  destruct (commit_fields (effects (handleSubmit r auth)) r)
    as (H1 & H2 & H3 & H4).
  do 4 (split; [assumption|]). split; [|split].
  - unfold submit.
    change (handleSubmit (with_error e0 r) auth) with (handleSubmit r auth).
    destruct (handleSubmit_prefix r auth) as [tail ->].
    apply (commit_error tail). reflexivity.
  - intros E. destruct (valid r) eqn:V.
    + split; [reflexivity|].
      destruct (auth (the_call r)) as [|err] eqn:A; [reflexivity|].
      unfold submit in E.
      rewrite (handleSubmit_rejected r auth err V A) in E.
      pose proof (shown_message_truthy r err) as T.
      cbn in E. rewrite E in T. discriminate.
    + destruct (handleSubmit_invalid r auth V) as (msg & Hs & I).
      unfold submit in E. rewrite Hs in E. cbn in E. subst msg.
      apply validation_messages_truthy in I. discriminate.
  - intros [V A]. unfold submit.
    now rewrite (handleSubmit_resolved r auth V A).
Qed.

(** Trimming and white space around a text. *)
Lemma trimStart_app_blank (pre s : js_string) :
  blank pre = true -> trimStart (pre ++ s) = trimStart s.
Proof.
  induction pre as [|c r IH]; [reflexivity|].
  cbn. intros B. apply andb_true_iff in B as [C B]. rewrite C. auto.
Qed.

Lemma trimStart_app_nonblank (s suf : js_string) :
  blank s = false -> trimStart (s ++ suf) = trimStart s ++ suf.
Proof.
  induction s as [|c r IH]; [discriminate|].
  cbn. destruct (is_white_space c); cbn; [exact IH|reflexivity].
Qed.

Lemma trimEnd_app_blank (s suf : js_string) :
  blank suf = true -> trimEnd (s ++ suf) = trimEnd s.
Proof.
  intros B. unfold trimEnd. rewrite rev_app_distr.
  rewrite trimStart_app_blank; [reflexivity|now rewrite blank_rev].
Qed.

Lemma trim_padding (pre s suf : js_string) :
  blank pre = true -> blank suf = true -> trim (pre ++ s ++ suf) = trim s.
Proof.
  intros Bp Bs. unfold trim. rewrite (trimStart_app_blank pre _ Bp).
  destruct (blank s) eqn:B.
  - rewrite (trimStart_app_blank s suf B).
    apply trimStart_nil in Bs. rewrite Bs.
    apply trimStart_nil in B. now rewrite B.
  - rewrite (trimStart_app_nonblank s suf B).
    now apply trimEnd_app_blank.
Qed.

(** X14. White space around the username does not count in validation:
    padding the typed username with white space on either side leaves
    the outcome of [validateForm] as it is.  The padding is not removed
    from what is sent: the auth call of a valid form carries the
    username as typed.  The password is measured as typed: two
    passwords of the same length validate alike, white space included. *)
Theorem username_padding_ignored_but_sent
    (r : State) (auth : AuthCall -> AuthOutcome)
    (pre u suf p p' : js_string) :
  blank pre = true -> blank suf = true ->
  valid (setUsername (pre ++ u ++ suf) r) = valid (setUsername u r)
  /\ (valid (setUsername u r) = true ->
      exists c,
        auth_calls (effects (handleSubmit (setUsername (pre ++ u ++ suf) r)
                               auth)) = [c]
        /\ call_username c = pre ++ u ++ suf)
  /\ (length p = length p' ->
      valid (setPassword p r) = valid (setPassword p' r)).
Proof.
  intros Bp Bs.
  assert (valid (setUsername (pre ++ u ++ suf) r) = valid (setUsername u r))
    as V.
  { rewrite !valid_eq. cbn [username password isLogin email setUsername].
    now rewrite (trim_padding pre u suf Bp Bs). }
  split; [exact V|]. split.
  - intros Vu. rewrite <- V in Vu.
    exists (the_call (setUsername (pre ++ u ++ suf) r)).
    split; [now apply handleSubmit_valid|].
    unfold the_call. cbn. destruct (isLogin r); reflexivity.
  - intros L. rewrite !valid_eq.
    cbn [username password isLogin email setPassword]. now rewrite L.
Qed.

Lemma username_padding_ignored_but_sent_witness :
  valid (setUsername (lit " " ++ lit "alice" ++ lit "  ")
           Sample.registration) = true
  /\ exists c,
      auth_calls
        (effects (handleSubmit
                    (setUsername (lit " " ++ lit "alice" ++ lit "  ")
                       Sample.registration) Sample.auth_ok)) = [c]
      /\ call_username c = lit " alice  ".
Proof.
  destruct (username_padding_ignored_but_sent Sample.registration
              Sample.auth_ok (lit " ") (lit "alice") (lit "  ") [] []
              eq_refl eq_refl) as (H1 & H2 & _).
  split; [rewrite H1; reflexivity|].
  apply H2. reflexivity.
Defined.

(** X24. The Login and Register buttons change the mode, empty the
    error string and leave what is typed in the three fields; typing
    into a field leaves the error string where it is.  After a switch
    to login mode the email no longer matters: when the username and
    the password pass their checks, a submission makes the login call
    with them, whatever the email field holds. *)
Theorem mode_switch_clears_error_keeps_fields
    (st : State) (auth : AuthCall -> AuthOutcome) (b : bool)
    (v : js_string) :
  switch_mode b st
  = {| isLogin := b; username := username st; email := email st;
       password := password st; error := lit "" |}
  /\ error (setUsername v st) = error st
  /\ error (setEmail v st) = error st
  /\ error (setPassword v st) = error st
  /\ (3 <= length (trim (username st)) -> 6 <= length (password st) ->
      auth_calls (effects (handleSubmit (switch_mode true st) auth))
      = [login (username st) (password st)]).
Proof.
  do 4 (split; [reflexivity|]). intros U P.
  rewrite handleSubmit_valid; [reflexivity|].
  apply valid_iff. cbn. repeat split; [exact U|exact P|discriminate].
Qed.

Lemma mode_switch_clears_error_keeps_fields_witness :
  auth_calls
    (effects (handleSubmit (switch_mode true Scenario.bad_email)
                Sample.auth_ok))
  = [login (lit "alice") (lit "secret")].
Proof.
  apply (mode_switch_clears_error_keeps_fields Scenario.bad_email
           Sample.auth_ok true []); vm_compute; discriminate.
Defined.

End LoginMore.

(** ** The dashboard shell: when the redirect runs *)

Module HomeMore.
Import JS Home HomeFacts.

(** While the dependencies stay what the previous render had, the
    passes run no effect. *)
Lemma passes_same_deps (d : bool * nat) (rs : list (Context * Tab)) :
  (forall c t, In (c, t) rs -> deps c = d) ->
  concat (map snd (passes (Some d) rs)) = [].
Proof.
  induction rs as [|[c t] rs IH]; intros H; [reflexivity|].
  assert (deps c = d) as E by (apply (H c t); left; reflexivity).
  cbn [passes map concat]. unfold render at 1. cbn [snd effect_runs].
  rewrite E. assert (deps_eqb d d = true) as -> by now apply deps_eqb_eq.
  cbn [negb app]. apply IH. intros c' t' I. apply (H c' t'). now right.
Qed.

(** X15. The redirect does not wait for the auth context to finish
    loading: a dashboard mounted with the viewer not (yet)
    authenticated pushes "/login" in its very first pass, while the
    spinner is shown if loading is under way, whatever the later
    renders bring. *)
Theorem redirect_does_not_wait_for_loading
    (c : Context) (tab : Tab) (rest : list (Context * Tab)) :
  isAuthenticated c = false ->
  exists v tail,
    lifetime ((c, tab) :: rest)
    = (v, [RouterPush (router c) (lit "/login")]) :: tail
    /\ (isLoading c = true -> v = Spinner)
    /\ (isLoading c = false -> v = Null).
Proof.
  intros A. unfold lifetime. cbn [passes]. unfold render.
  cbn [effect_runs]. rewrite (redirect_logged_out c A).
  eexists _, _. split; [reflexivity|].
  unfold view. rewrite A. split; intros ->; reflexivity.
Qed.

Lemma redirect_does_not_wait_for_loading_witness :
  exists tail,
    lifetime [(Sample.loading, market); (Scenario.logged_in, market)]
    = (Spinner, [RouterPush 0 (lit "/login")]) :: tail.
Proof.
  destruct (redirect_does_not_wait_for_loading Sample.loading market
              [(Scenario.logged_in, market)] eq_refl)
    as (v & tail & H & L & _).
  exists tail. rewrite H, (L eq_refl). reflexivity.
Defined.

(** X16. Re-renders do not repeat the redirect.  Over a life of the
    dashboard in which the flag and the router stay what they were at
    the mount, all the effects taken together are those of the mount:
    one push of "/login" when the viewer is not authenticated, nothing
    when the viewer is. *)
Theorem redirect_runs_once_per_stretch
    (c : Context) (tab : Tab) (rest : list (Context * Tab)) :
  (forall c' t', In (c', t') rest -> deps c' = deps c) ->
  concat (map snd (lifetime ((c, tab) :: rest))) = redirect c
  /\ (List.length (concat (map snd (lifetime ((c, tab) :: rest)))) <= 1)%nat.
Proof.
  intros H. unfold lifetime. cbn [passes map concat].
  rewrite (passes_same_deps (deps c) rest H), app_nil_r.
  unfold render. cbn [snd effect_runs]. split; [reflexivity|].
  unfold redirect. destruct (negb (isAuthenticated c)); cbn; lia.
Qed.

Lemma redirect_runs_once_per_stretch_witness :
  concat (map snd (lifetime [(Sample.loading, market);
                             (Sample.logged_out, market);
                             (Sample.logged_out, discussion)]))
  = [RouterPush 0 (lit "/login")].
Proof.
  apply (redirect_runs_once_per_stretch Sample.loading market
           [(Sample.logged_out, market); (Sample.logged_out, discussion)]).
  intros c' t' [[= <- <-]|[[= <- <-]|[]]]; reflexivity.
Defined.

(** The effects of one pass. *)
Lemma render_effects prev c tab :
  snd (render prev c tab) = []
  \/ (isAuthenticated c = false
      /\ snd (render prev c tab) = [RouterPush (router c) (lit "/login")]).
Proof.
  unfold render. cbn [snd]. destruct (effect_runs prev c); [|auto].
  unfold redirect. destruct (isAuthenticated c); cbn; auto.
Qed.

Lemma passes_lookup prev rs k v es :
  passes prev rs !! k = Some (v, es) ->
  exists prev' c tab, rs !! k = Some (c, tab) /\ (v, es) = render prev' c tab.
Proof.
  revert prev k.
  induction rs as [|[c t] rs IH]; intros prev k; [discriminate|].
  destruct k as [|k]; cbn.
  - intros E. apply (inj Some) in E.
    exists prev, c, t. split; [reflexivity|]. symmetry. exact E.
  - apply IH.
Qed.

(** X17. The dashboard navigates nowhere but to "/login", and never
    while the viewer is authenticated: a pass of any life of the
    component either runs no effect, or the viewer is not authenticated
    in it and its one effect is the push of "/login". *)
Theorem dashboard_only_ever_pushes_login
    (rs : list (Context * Tab)) (k : nat) (v : View) (es : list Effect) :
  lifetime rs !! k = Some (v, es) ->
  es = []
  \/ exists c tab,
       rs !! k = Some (c, tab) /\ isAuthenticated c = false
       /\ es = [RouterPush (router c) (lit "/login")].
Proof.
  intros L. apply passes_lookup in L as (prev & c & tab & Lk & E).
  apply (f_equal snd) in E.
  change (es = snd (render prev c tab)) in E.
  destruct (render_effects prev c tab) as [N|[A P]].
  - left. congruence.
  - right. exists c, tab. repeat split; congruence.
Qed.

Lemma dashboard_only_ever_pushes_login_witness :
  lifetime [(Scenario.logged_in, market); (Sample.logged_out, market)]
    !! 1%nat = Some (Null, [RouterPush 0 (lit "/login")])
  /\ exists c tab,
       [(Scenario.logged_in, market); (Sample.logged_out, market)] !! 1%nat
       = Some (c, tab) /\ isAuthenticated c = false.
Proof.
  split; [reflexivity|].
  destruct (dashboard_only_ever_pushes_login
              [(Scenario.logged_in, market); (Sample.logged_out, market)]
              1 Null [RouterPush 0 (lit "/login")] eq_refl)
    as [H|(c & tab & H1 & H2 & _)].
  - discriminate H.
  - exists c, tab. split; assumption.
Defined.

End HomeMore.

(** ** Stock data *)

Module StockFacts.
Import JS Handler Stock.

Section Values.
Context {number : Type}.
Variable number_truthy : number -> bool.
Variable NumberToString : number -> js_string.
Variable null_read_message : js_string.
Variable convert_message : js_string.

Local Abbreviation fetchStockData :=
  (fetchStockData number_truthy NumberToString null_read_message
     convert_message).
Local Abbreviation load :=
  (load number_truthy NumberToString null_read_message convert_message).
Local Abbreviation delivers := (delivers number_truthy null_read_message).
Local Abbreviation fails_with :=
  (fails_with number_truthy NumberToString null_read_message
     convert_message).
Local Abbreviation get_error := (get_error null_read_message).
Local Abbreviation truthy_value := (truthy_value number_truthy).
Local Abbreviation error_message :=
  (error_message NumberToString convert_message).

(** The run of [fetchStockData], by the reply. *)
Lemma fetchStockData_delivers symbol (net : Request -> Reply) data :
  delivers net (stock_request symbol) data ->
  fetchStockData symbol net
  = ([SetLoading true; SetError None; Fetch (stock_request symbol);
      SetStockData data; SetSelectedStock symbol; SetLoading false], Ok tt).
Proof.
  intros (ok & err & N & G & T).
  unfold Stock.fetchStockData, await_fetch. cbn. rewrite N. cbn.
  rewrite G. cbn. rewrite T. reflexivity.
Qed.

Lemma fetchStockData_fails symbol (net : Request -> Reply) msg :
  fails_with net (stock_request symbol) msg ->
  fetchStockData symbol net
  = ([SetLoading true; SetError None; Fetch (stock_request symbol);
      SetError (Some msg); SetLoading false], Ok tt).
Proof.
  unfold Stock.fails_with, Stock.fetchStockData, await_fetch. cbn.
  destruct (net _) as [e|ok [data|e]]; cbn.
  - intros ->. destruct e. reflexivity.
  - destruct (Stock.get_error _ data) as [err|e]; cbn.
    + intros [T ->]. rewrite T.
      destruct (Stock.error_message _ _ err) as [m|[m]]; reflexivity.
    + intros ->. destruct e. reflexivity.
  - intros ->. destruct e. reflexivity.
Qed.

Lemma reply_cases (net : Request -> Reply) req :
  (exists data, delivers net req data) \/ (exists msg, fails_with net req msg).
Proof.
  unfold Stock.delivers, Stock.fails_with.
  destruct (net req) as [e|ok [data|e]]; eauto.
  destruct (Stock.get_error _ data) as [err|e] eqn:G; eauto.
  destruct (Stock.truthy_value _ err) eqn:T; eauto 8.
Qed.

(** X18. Every run of [fetchStockData] issues exactly one request, a
    GET of the stock endpoint followed by the symbol as given, without
    headers; it ends with the loading flag off whatever the reply, and
    what it leaves does not depend on the loading flag and the error it
    found. *)
Theorem stock_load_always_settles
    (symbol : js_string) (net : Request -> Reply) (st : State)
    (l : bool) (e : option js_string) :
  network_calls (effects (fetchStockData symbol net))
  = [stock_request symbol]
  /\ url (stock_request symbol)
     = lit "http://localhost:5001/api/stock/" ++ symbol
  /\ headers (stock_request symbol) = []
  /\ loading (load symbol net st) = false
  /\ load symbol net
       {| selectedStock := selectedStock st; stockData := stockData st;
          loading := l; error := e |}
     = load symbol net st.
Proof.
  unfold Stock.load.
  destruct (reply_cases net (stock_request symbol)) as [[data D]|[msg F]].
  - rewrite (fetchStockData_delivers _ _ _ D). repeat split.
  - rewrite (fetchStockData_fails _ _ _ F). repeat split.
Qed.

(** X19. When the body of the reply is JSON whose [error] property is
    missing or falsy, the data is stored and the symbol selected, the
    error is cleared and loading ends.  The status of the response is
    not looked at: a reply that is not ok is stored all the same. *)
Theorem stock_load_stores_data
    (symbol : js_string) (net : Request -> Reply) (st : State)
    (ok : bool) (data : Json) (err : option Json) :
  net (stock_request symbol) = Responded ok (Ok data) ->
  get_error data = Ok err -> truthy_value err = false ->
  load symbol net st
  = {| selectedStock := Some symbol; stockData := Some data;
       loading := false; error := None |}.
Proof.
  intros N G T. unfold Stock.load.
  rewrite (fetchStockData_delivers symbol net data); [reflexivity|].
  exists ok, err. auto.
Qed.

(** X20. In every other case (the request is rejected, the body is not
    JSON, the body is [null], or its [error] property is truthy) the
    selected symbol and the stored data stay what they were, the error
    becomes the message of what was thrown, and loading ends. *)
Theorem stock_load_failure_keeps_data
    (symbol : js_string) (net : Request -> Reply) (st : State)
    (msg : js_string) :
  fails_with net (stock_request symbol) msg ->
  load symbol net st
  = {| selectedStock := selectedStock st; stockData := stockData st;
       loading := false; error := Some msg |}.
Proof.
  intros F. unfold Stock.load.
  rewrite (fetchStockData_fails _ _ _ F). reflexivity.
Qed.

(** X21. A body whose [error] property is a non-empty string makes that
    string the error shown, as it is, whatever the status of the
    response; nothing else of the body is stored. *)
Theorem stock_load_reports_server_error
    (symbol : js_string) (net : Request -> Reply) (st : State)
    (ok : bool) (members : list (js_string * Json)) (s : js_string) :
  net (stock_request symbol) = Responded ok (Ok (JObject members)) ->
  lookup_member (lit "error") members = Some (JString s) ->
  truthy s = true ->
  error (load symbol net st) = Some s
  /\ stockData (load symbol net st) = stockData st
  /\ selectedStock (load symbol net st) = selectedStock st.
Proof.
  intros N L T. unfold Stock.load.
  rewrite (fetchStockData_fails symbol net s); [repeat split|].
  unfold Stock.fails_with, Stock.get_error. rewrite N, L. cbn. auto.
Qed.

(** The panel of the market tab after a run of [fetchStockData]. *)
Lemma detail_after_load symbol (net : Request -> Reply) st :
  detail (load symbol net st) = detail st
  \/ detail (load symbol net st)
     = (if truthy symbol then Charts symbol else SearchHint).
Proof.
  unfold Stock.load.
  destruct (reply_cases net (stock_request symbol)) as [[data D]|[msg F]].
  - right. rewrite (fetchStockData_delivers _ _ _ D). reflexivity.
  - left. rewrite (fetchStockData_fails _ _ _ F). reflexivity.
Qed.

(** X22. The charts follow the selected symbol.  Choosing a symbol in
    the search bar shows its charts and news at once, without a request
    and without touching the stored data; the empty symbol shows the
    search hint.  A load that fails leaves the panel as it was, and
    the discussion tab shows the feed whatever is selected. *)
Theorem charts_follow_selected_symbol
    (symbol : js_string) (net : Request -> Reply) (st : State)
    (msg : js_string) :
  content Home.market (select symbol st)
  = MarketContent (if truthy symbol then Charts symbol else SearchHint)
  /\ network_calls (effects (onStockSelect (number := number) symbol)) = []
  /\ stockData (select symbol st) = stockData st
  /\ (fails_with net (stock_request symbol) msg ->
      forall tab, content tab (load symbol net st) = content tab st)
  /\ content Home.discussion (load symbol net st) = DiscussionContent.
Proof.
  repeat split.
  intros F tab. unfold Stock.load.
  rewrite (fetchStockData_fails _ _ _ F). destruct tab; reflexivity.
Qed.

End Values.

Lemma stock_load_stores_data_witness :
  Stock.load Scenario.nonzero Scenario.print_integer Scenario.null_read
    Scenario.no_primitive (lit "AAPL") Scenario.stock_quote Scenario.watching
  = {| selectedStock := Some (lit "AAPL");
       stockData := Some Scenario.quote;
       loading := false; error := None |}.
Proof.
  apply (stock_load_stores_data Scenario.nonzero Scenario.print_integer
           Scenario.null_read Scenario.no_primitive (lit "AAPL")
           Scenario.stock_quote Scenario.watching false Scenario.quote
           (Some (JString (lit ""))));
    reflexivity.
Defined.

Lemma stock_load_failure_keeps_data_witness :
  Stock.load Scenario.nonzero Scenario.print_integer Scenario.null_read
    Scenario.no_primitive (lit "AAPL") Scenario.stock_offline
    Scenario.watching
  = {| selectedStock := Some (lit "MSFT");
       stockData := Some (JString (lit "old"));
       loading := false; error := Some (lit "Failed to fetch") |}.
Proof.
  apply (stock_load_failure_keeps_data Scenario.nonzero
           Scenario.print_integer Scenario.null_read Scenario.no_primitive
           (lit "AAPL") Scenario.stock_offline Scenario.watching
           (lit "Failed to fetch")).
  reflexivity.
Defined.

Lemma stock_load_reports_server_error_witness :
  error (Stock.load Scenario.nonzero Scenario.print_integer
           Scenario.null_read Scenario.no_primitive (lit "XXXX")
           Scenario.stock_unknown Scenario.watching)
  = Some (lit "Symbol not found").
Proof.
  apply (stock_load_reports_server_error Scenario.nonzero
           Scenario.print_integer Scenario.null_read Scenario.no_primitive
           (lit "XXXX") Scenario.stock_unknown Scenario.watching true
           [(lit "error", JString (lit "Symbol not found"))]
           (lit "Symbol not found"));
    reflexivity.
Defined.

Lemma charts_follow_selected_symbol_witness :
  content Home.market
    (Stock.load Scenario.nonzero Scenario.print_integer
       Scenario.null_read Scenario.no_primitive (lit "AAPL")
       Scenario.stock_offline Scenario.watching)
  = MarketContent (Charts (lit "MSFT")).
Proof.
  destruct (charts_follow_selected_symbol Scenario.nonzero
              Scenario.print_integer Scenario.null_read
              Scenario.no_primitive (lit "AAPL") Scenario.stock_offline
              Scenario.watching (lit "Failed to fetch"))
    as (_ & _ & _ & H & _).
  rewrite (H eq_refl Home.market). reflexivity.
Defined.

End StockFacts.

(** ** The feed inside the dashboard *)

Module AppFacts.
Import JS App PollingFacts.

Lemma shows_feed_authenticated c tab :
  shows_feed c tab = true ->
  Home.isAuthenticated c = true /\ Home.isLoading c = false
  /\ tab = Home.discussion.
Proof.
  unfold shows_feed, Home.view.
  destruct (Home.isLoading c), (Home.isAuthenticated c), tab;
    cbn; intros; auto; discriminate.
Qed.

(** What the labels of [reconcile] do to a world in which a mounted feed
    belongs to an authenticated viewer. *)
Lemma reconcile_runs c tab w :
  Polling.polling_inv w ->
  (Polling.mounted w = true -> Polling.isAuthenticated w = true) ->
  exists w',
    Polling.run_labels w (reconcile c tab w) = Some w'
    /\ Polling.mounted w' = shows_feed c tab
    /\ Polling.isAuthenticated w' = Home.isAuthenticated c.
Proof.
  intros I MA. unfold reconcile.
  destruct (inv_run_cleanup w I) as (_ & _ & Mc & Ac & _).
  assert (forall w0, Polling.isAuthenticated (Polling.run_effect w0)
                       = Polling.isAuthenticated w0
                       /\ Polling.mounted (Polling.run_effect w0)
                          = Polling.mounted w0) as Re.
  { intros w0. unfold Polling.run_effect.
    destruct (Polling.isAuthenticated w0) eqn:E; cbn; auto. }
  destruct (Polling.mounted w) eqn:M, (shows_feed c tab) eqn:Sh.
  - apply shows_feed_authenticated in Sh as (A & _).
    rewrite A, (MA eq_refl).
    cbn [Bool.eqb Polling.run_labels Polling.step_fn]. rewrite M. eauto.
  - rewrite (MA eq_refl).
    cbn [Polling.run_labels Polling.step_fn]. rewrite M.
    destruct (Home.isAuthenticated c) eqn:A;
      cbn [Bool.eqb Polling.run_labels Polling.step_fn Polling.mounted
           Polling.isAuthenticated Polling.set_mounted].
    + eexists. split; [reflexivity|]. cbn. rewrite Ac. auto.
    + rewrite Ac, (MA eq_refl). cbn [Bool.eqb]. eauto.
  - apply shows_feed_authenticated in Sh as (A & _). rewrite A.
    destruct (Polling.isAuthenticated w) eqn:Aw;
      cbn [Bool.eqb app Polling.run_labels Polling.step_fn];
      rewrite ?Aw, ?M;
      cbn [Bool.eqb app Polling.run_labels Polling.step_fn Polling.mounted
           Polling.isAuthenticated Polling.set_authenticated];
      rewrite ?M;
      (eexists; split; [reflexivity|]);
      match goal with
      | |- context [Polling.run_effect ?w0] =>
          destruct (Re w0) as [-> ->]
      end; cbn; auto.
  - destruct (Home.isAuthenticated c) eqn:A,
             (Polling.isAuthenticated w) eqn:Aw;
      cbn [Bool.eqb Polling.run_labels Polling.step_fn];
      rewrite ?Aw, ?M; cbn [Bool.eqb]; rewrite ?M; eauto.
Qed.

Lemma run_labels_inv w ls w' :
  Polling.polling_inv w -> Polling.run_labels w ls = Some w' ->
  Polling.polling_inv w'.
Proof.
  intros I R. exact (inv_steps _ _ _ I (run_labels_steps _ _ _ R)).
Qed.

(** Time and timer steps leave the feed where it is. *)
Lemma passive_step w l w' :
  match l with Polling.Elapse _ | Polling.Tick _ => True | _ => False end ->
  Polling.step_fn w l = Some w' ->
  Polling.mounted w' = Polling.mounted w
  /\ Polling.isAuthenticated w' = Polling.isAuthenticated w.
Proof.
  destruct l as [| | |b|d|h]; intros []; cbn [Polling.step_fn].
  - intros [= <-]. auto.
  - destruct (Polling.timers w !! h) as [t|]; [|discriminate].
    destruct (Polling.due t <=? Polling.now w); [|discriminate].
    destruct (Polling.callback t). intros [= <-]. auto.
Qed.

Lemma app_inv_mounted a :
  app_inv a ->
  Polling.mounted (feed a) = true -> Polling.isAuthenticated (feed a) = true.
Proof.
  intros (_ & M & A) Mt. rewrite M in Mt.
  apply shows_feed_authenticated in Mt as (Au & _). congruence.
Qed.

Lemma app_inv_initial c : app_inv (initial c).
Proof.
  split; [apply inv_initial|]. split; [|reflexivity].
  unfold initial, shows_feed, Home.view. cbn.
  destruct (Home.isLoading c), (Home.isAuthenticated c); reflexivity.
Qed.

Lemma app_inv_step a ev a' :
  app_inv a -> step_fn a ev = Some a' -> app_inv a'.
Proof.
  intros J S. pose proof J as (I & M & A).
  pose proof (app_inv_mounted a J) as MA.
  destruct ev as [c|tab|d|h]; cbn [step_fn] in S.
  - destruct (reconcile_runs c (activeTab a) (feed a) I MA)
      as (w & R & Mw & Aw).
    rewrite R in S. injection S as <-.
    split; [exact (run_labels_inv _ _ _ I R)|]. auto.
  - destruct (shows_buttons _ _); [|discriminate].
    destruct (reconcile_runs (context a) tab (feed a) I MA)
      as (w & R & Mw & Aw).
    rewrite R in S. injection S as <-.
    split; [exact (run_labels_inv _ _ _ I R)|]. auto.
  - destruct (Polling.step_fn (feed a) (Polling.Elapse d)) as [w|] eqn:P;
      [|discriminate].
    injection S as <-.
    destruct (passive_step _ (Polling.Elapse d) _ Logic.I P) as [Mw Aw].
    split; [exact (inv_step _ _ _ I P)|]. cbn. split; congruence.
  - destruct (Polling.step_fn (feed a) (Polling.Tick h)) as [w|] eqn:P;
      [|discriminate].
    injection S as <-.
    destruct (passive_step _ (Polling.Tick h) _ Logic.I P) as [Mw Aw].
    split; [exact (inv_step _ _ _ I P)|]. cbn. split; congruence.
Qed.

Lemma app_inv_run a evs a' :
  app_inv a -> run_events a evs = Some a' -> app_inv a'.
Proof.
  revert a. induction evs as [|ev evs IH]; intros a J; cbn.
  - intros [= <-]. exact J.
  - destruct (step_fn a ev) as [a1|] eqn:S; [|discriminate].
    apply IH. exact (app_inv_step _ _ _ J S).
Qed.

(** X23. Under the dashboard the feed polls only while it is on screen.
    In every state the dashboard can reach, the feed is mounted exactly
    when the discussion tab of an authenticated viewer is shown, and
    then it holds its one 10 s timer; on the market tab, behind the
    spinner and after a logout the timer table is empty and no timer
    step is enabled.  A mounted feed always belongs to an authenticated
    viewer, so its own login prompt is never what it renders there.
    Changes of the auth context are never stuck. *)
Theorem feed_polls_only_while_shown (a : State) :
  reachable a ->
  Polling.mounted (feed a) = shows_feed (context a) (activeTab a)
  /\ (shows_feed (context a) (activeTab a) = true ->
      exists h t, Polling.timers (feed a) = {[h := t]}
                  /\ Polling.callback t = Polling.FetchMessages
                  /\ Polling.period t = 10000)
  /\ (shows_feed (context a) (activeTab a) = false ->
      Polling.timers (feed a) = ∅
      /\ forall h w', ~ Polling.step (feed a) (Polling.Tick h) w')
  /\ (Polling.mounted (feed a) = true ->
      forall user st,
        DiscussionView.render (Home.isAuthenticated (context a)) user st
        <> DiscussionView.LoginPrompt)
  /\ (forall c, is_Some (step_fn a (ContextChange c))).
Proof.
  intros (c0 & evs & R).
  pose proof (app_inv_run _ _ _ (app_inv_initial c0) R) as J.
  pose proof J as (I & M & A).
  pose proof (app_inv_mounted a J) as MA.
  split; [exact M|]. split; [|split; [|split]].
  - intros Sh. rewrite <- M in Sh. specialize (MA Sh).
    unfold Polling.polling_inv in I.
    destruct (Polling.cleanup (feed a)) as [h|].
    + destruct I as (_ & _ & t & T & Cb & P & _). eauto.
    + destruct I as [_ I]. specialize (I Sh). congruence.
  - intros Sh. rewrite <- M in Sh.
    assert (Polling.timers (feed a) = ∅) as T
      by (apply inv_idle; auto).
    split; [exact T|]. intros h w' S.
    apply tick_needs_timer in S as [t L].
    rewrite T, lookup_empty in L. discriminate.
  - intros Mt user st. specialize (MA Mt). rewrite A in MA.
    unfold DiscussionView.render. rewrite MA. discriminate.
  - intros c. cbn [step_fn].
    destruct (reconcile_runs c (activeTab a) (feed a) I MA) as (w & -> & _).
    eauto.
Qed.

Lemma feed_polls_only_while_shown_witness :
  reachable Scenario.back_on_market
  /\ shows_feed (context Scenario.back_on_market)
       (activeTab Scenario.back_on_market) = false
  /\ Polling.timers (feed Scenario.back_on_market) = ∅.
Proof.
  assert (reachable Scenario.back_on_market) as R.
  { exists Scenario.logged_in, Scenario.visit. vm_compute. reflexivity. }
  split; [exact R|]. split; [reflexivity|].
  apply (feed_polls_only_while_shown Scenario.back_on_market R).
  reflexivity.
Defined.

End AppFacts.
